(** * Android binary XML reader (web_app/wasm/source/apk/binary_xml.cpp)

    A shallow embedding of the chunk reader, the string pool decoder, the
    attribute decoder and the traversal of [BinaryXml], with the properties
    the specification states about them.

    Conventions of the embedding:
    - the buffer [content_] is a [list byte]; fixed-width integers are [Z]
      with their wrap-around written out ([u32], [u64]);
    - [size_t] is taken to be 64 bits wide (LP64): the cursor of the
      traversal is a [uint64_t] in the source, and indexing the vector with
      it does not narrow it.  Where [size_t] has 32 bits (wasm32) the index
      is narrowed modulo 2^32 at each access; the embedding does not model
      that, and what is proved about cursors at or beyond 2^32 holds for the
      64-bit index only;
    - [std::string] is [string]; [std::vector<std::string>] is [list string];
      [std::map<std::string, std::string>] is [gmap string string];
    - the source never checks a bound: [readBytesAtIndex] is a [memcpy] from
      [&data[index]] and the pool is indexed with [operator[]].  A read
      outside the buffer or the pool is undefined behaviour in C++; here it
      is the explicit result [Fail OutOfBounds], so that "the code relies on
      the input being in range" becomes a statement one can prove or refute;
    - the visitor is an interface; a traversal is modelled by the sequence
      of elements on which it calls [accept(visitor)], in order. *)

From Stdlib Require Import ZArith Lia Strings.Byte Ascii String DecimalString.
From stdpp Require Import base option list gmap strings fin_maps.

Local Open Scope Z_scope.

(** ** Results of fallible code *)

Inductive fault : Type :=
| OutOfBounds   (* unchecked access outside the buffer or the pool *)
| RangeError.   (* std::range_error thrown by wstring_convert::to_bytes *)

Inductive res (A : Type) : Type :=
| Ok (a : A)
| Fail (f : fault).
Arguments Ok {A} a.
Arguments Fail {A} f.

Definition res_bind {A B : Type} (k : A → res B) (m : res A) : res B :=
  match m with
  | Ok a => k a
  | Fail f => Fail f
  end.

#[global] Instance res_mret : MRet res := @Ok.
#[global] Instance res_mbind : MBind res := @res_bind.
#[global] Instance res_fmap : FMap res :=
  λ A B (g : A → B) (m : res A), res_bind (λ a, Ok (g a)) m.

(** ** Fixed-width integers *)

Definition u32 (x : Z) : Z := x mod 2 ^ 32.
Definition u64 (x : Z) : Z := x mod 2 ^ 64.

(** The value of a 32-bit pattern read as [int32_t]. *)
Definition i32 (x : Z) : Z := if x <? 2 ^ 31 then x else x - 2 ^ 32.

(** ** Bytes and unchecked reads *)

Abbreviation bytes := (list byte).
Abbreviation strings := (list string).

Definition byte_val (b : byte) : Z := Z.of_N (Byte.to_N b).

(** Little-endian value of a run of bytes, as [memcpy] into an integer gives
    it on the targets of the program. *)
Fixpoint le_value (bs : bytes) : Z :=
  match bs with
  | [] => 0
  | b :: rest => byte_val b + 256 * le_value rest
  end.

(** [data.size()] *)
Definition bsize (data : bytes) : Z := Z.of_nat (length data).

(** [n] bytes of [data] from position [pos]; positions outside the buffer
    are not readable. *)
Definition slice (data : bytes) (pos : Z) (n : Z) : res bytes :=
  if (0 <=? pos) && (0 <=? n) && (pos + n <=? bsize data)
  then Ok (take (Z.to_nat n) (drop (Z.to_nat pos) data))
  else Fail OutOfBounds.

(** [readBytesAtIndex<T>(data, index)] with [sizeof(T) = width]: the value
    read and the advanced index (the source advances [index] through a
    reference). *)
Definition readBytesAtIndex (width : Z) (data : bytes) (index : Z) : res (Z * Z) :=
  bs ← slice data index width;
  Ok (le_value bs, u64 (index + width)).

(** [strings[index]] of a [std::vector]: unchecked. *)
Definition at_index (pool : strings) (index : Z) : res string :=
  if (0 <=? index) && (index <? Z.of_nat (length pool))
  then match pool !! Z.to_nat index with
       | Some s => Ok s
       | None => Fail OutOfBounds
       end
  else Fail OutOfBounds.

(** ** Constants of resource_types.h *)

(** resource_types.h is not part of the sources.  Section 6 of the
    specification fixes the file magic, the string pool chunk id, the
    encoding flag, the chunk type tags and the boolean raw values. *)

(** Modelled from the spec: the XML file magic, Android's [RES_XML_TYPE]
    with its header size. *)
Definition XML_IDENTIFIER : Z := 0x00080003.
(** Modelled from the spec: the 16-bit string pool chunk id. *)
Definition XML_STRING_TABLE : Z := 0x0001.
(** Modelled from the spec: the encoding flag bit, [1 << 8]. *)
Definition RES_FLAG_UTF8 : Z := Z.shiftl 1 8.
(** Modelled from the spec: the chunk type tag of start-namespace. *)
Definition RES_XML_START_NAMESPACE_TYPE : Z := 0x0100.
(** Modelled from the spec: the chunk type tag of end-namespace. *)
Definition RES_XML_END_NAMESPACE_TYPE : Z := 0x0101.
(** Modelled from the spec: the chunk type tag of start-element. *)
Definition RES_XML_START_ELEMENT_TYPE : Z := 0x0102.
(** Modelled from the spec: the chunk type tag of end-element. *)
Definition RES_XML_END_ELEMENT_TYPE : Z := 0x0103.
(** Modelled from the spec: the chunk type tag of cdata. *)
Definition RES_XML_CDATA_TYPE : Z := 0x0104.
(** Modelled from the spec: the chunk type tag of resource-map. *)
Definition RES_XML_RESOURCE_MAP_TYPE : Z := 0x0180.
(** Modelled from the spec: the raw value of the boolean true. *)
Definition RES_VALUE_TRUE : Z := 0xFFFFFFFF.
(** Modelled from the spec: the raw value of the boolean false. *)
Definition RES_VALUE_FALSE : Z := 0x00000000.

(** The constants of resource_types.h whose values the specification does
    not give: the attribute block marker and the attribute type tags.  They
    are parameters of the development. *)
Record ResourceTypes : Type := {
  XML_ATTRS_MARKER : Z;
  TYPE_NULL : Z;
  TYPE_REFERENCE : Z;
  TYPE_ATTRIBUTE : Z;
  TYPE_STRING : Z;
  TYPE_FLOAT : Z;
  TYPE_DIMENSION : Z;
  TYPE_FRACTION : Z;
  TYPE_DYNAMIC_REFERENCE : Z;
  TYPE_INT_DEC : Z;
  TYPE_INT_HEX : Z;
  TYPE_INT_BOOLEAN : Z
}.

(** The labels of a C++ [switch] are pairwise distinct. *)
Definition distinct_labels (rt : ResourceTypes) : Prop :=
  NoDup [TYPE_NULL rt; TYPE_REFERENCE rt; TYPE_ATTRIBUTE rt; TYPE_STRING rt;
         TYPE_FLOAT rt; TYPE_DIMENSION rt; TYPE_FRACTION rt;
         TYPE_DYNAMIC_REFERENCE rt; TYPE_INT_DEC rt; TYPE_INT_HEX rt;
         TYPE_INT_BOOLEAN rt].

(** The values of Android's ResourceTypes.h, which the source names as its
    reference; used to run the embedding on concrete buffers. *)
Definition android : ResourceTypes := {|
  XML_ATTRS_MARKER := 0x00140014;
  TYPE_NULL := 0x00;
  TYPE_REFERENCE := 0x01;
  TYPE_ATTRIBUTE := 0x02;
  TYPE_STRING := 0x03;
  TYPE_FLOAT := 0x04;
  TYPE_DIMENSION := 0x05;
  TYPE_FRACTION := 0x06;
  TYPE_DYNAMIC_REFERENCE := 0x07;
  TYPE_INT_DEC := 0x10;
  TYPE_INT_HEX := 0x11;
  TYPE_INT_BOOLEAN := 0x12
|}.

(** ** The file header

    [struct BinaryXmlHeader]: ten fields of natural alignment, no padding.
    The source casts [content_.data()] to a pointer to the struct and reads
    fields through it; a field is read when the code mentions it. *)

Definition sizeof_BinaryXmlHeader : Z := 36.
Definition sizeof_uint32_t : Z := 4.

Definition header_field (width : Z) (content : bytes) (offset : Z) : res Z :=
  fst <$> readBytesAtIndex width content offset.

Definition xmlMagicNumber (content : bytes) : res Z := header_field 4 content 0.
Definition reservedBytes (content : bytes) : res Z := header_field 4 content 4.
Definition stringTableIdentifier (content : bytes) : res Z := header_field 2 content 8.
Definition headerSize (content : bytes) : res Z := header_field 2 content 10.
Definition chunkSize (content : bytes) : res Z := header_field 4 content 12.
Definition numStrings (content : bytes) : res Z := header_field 4 content 16.
Definition numStyles (content : bytes) : res Z := header_field 4 content 20.
Definition flags (content : bytes) : res Z := header_field 4 content 24.
Definition stringsOffset (content : bytes) : res Z := header_field 4 content 28.
Definition stylesOffset (content : bytes) : res Z := header_field 4 content 32.

(** [BinaryXml::getXmlChunkOffset] *)
Definition getXmlChunkOffset (content : bytes) : res Z :=
  magic ← xmlMagicNumber content;
  if negb (magic =? XML_IDENTIFIER) then Ok 0 else
  ident ← stringTableIdentifier content;
  if negb (ident =? XML_STRING_TABLE) then Ok 0 else
  declared ← chunkSize content;
  if bsize content <=? declared then Ok 0 else
  Ok (u64 (bsize content - u64 (bsize content - declared))).

(** ** The string pool *)

(** The 16-bit units of a run of bytes ([reinterpret_cast<const char16_t *>]). *)
Fixpoint code_units (bs : bytes) : list Z :=
  match bs with
  | lo :: hi :: rest => (byte_val lo + 256 * byte_val hi) :: code_units rest
  | _ => []
  end.

Section Reader.

Variable rt : ResourceTypes.

(** [std::wstring_convert<std::codecvt_utf8_utf16<char16_t>, char16_t>::to_bytes]
    belongs to the C++ standard library; what it does on ill-formed UTF-16
    depends on the implementation, so the converter is a parameter. *)
Variable to_bytes : list Z → res string.

(** The first loop of [readStrings]: [for (size_t i = 0; i < numStrings; i++)]. *)
Fixpoint readStringOffsets (content : bytes) (i : Z) (remaining : nat) : res (list Z) :=
  match remaining with
  | O => Ok []
  | S remaining' =>
      let index := u64 (sizeof_BinaryXmlHeader + u64 (i * sizeof_uint32_t)) in
      '(offset, _) ← readBytesAtIndex 4 content index;
      stringOffsets ← readStringOffsets content (i + 1) remaining';
      Ok (offset :: stringOffsets)
  end.

(** The body of the second loop of [readStrings], for one offset.  The
    payload pointer is [content_.data() + startStringsOffset + offset + 2]
    in both branches; the alignment of the [char16_t] view is not modelled. *)
Definition readString (content : bytes) (isUtf8Encoded : bool)
    (startStringsOffset offset : Z) : res string :=
  if isUtf8Encoded then
    let stringLengthOffset := u64 (startStringsOffset + offset) in
    '(stringLength, _) ← readBytesAtIndex 1 content stringLengthOffset;
    payload ← slice content (startStringsOffset + offset + 2) stringLength;
    Ok (String.string_of_list_byte payload)
  else
    let stringLengthOffset := u64 (startStringsOffset + offset) in
    '(stringLength, _) ← readBytesAtIndex 2 content stringLengthOffset;
    payload ← slice content (startStringsOffset + offset + 2) (2 * stringLength);
    to_bytes (code_units payload).

(** The second loop of [readStrings]: [for (auto &offset : stringOffsets)]. *)
Fixpoint readEachString (content : bytes) (isUtf8Encoded : bool)
    (startStringsOffset : Z) (stringOffsets : list Z) : res strings :=
  match stringOffsets with
  | [] => Ok []
  | offset :: rest =>
      s ← readString content isUtf8Encoded startStringsOffset offset;
      ss ← readEachString content isUtf8Encoded startStringsOffset rest;
      Ok (s :: ss)
  end.

(** [BinaryXml::readStrings] *)
Definition readStrings (content : bytes) : res strings :=
  magic ← xmlMagicNumber content;
  if negb (magic =? XML_IDENTIFIER) then Ok [] else
  ident ← stringTableIdentifier content;
  if negb (ident =? XML_STRING_TABLE) then Ok [] else
  count ← numStrings content;
  stringOffsets ← readStringOffsets content 0 (Z.to_nat count);
  let stringOffsetsInBytes := u64 (Z.of_nat (length stringOffsets) * sizeof_uint32_t) in
  let startStringsOffset := u64 (sizeof_BinaryXmlHeader + stringOffsetsInBytes) in
  fl ← flags content;
  let isUtf8Encoded := Z.land fl RES_FLAG_UTF8 =? RES_FLAG_UTF8 in
  readEachString content isUtf8Encoded startStringsOffset stringOffsets.

(** ** [utils::formatString]

    utils/utils.h is not part of the sources.  The attribute decoder calls
    [formatString] with one 32-bit argument and the printf directives [%08X]
    and [%d]; section 4.5 of the specification describes the renderings. *)

(** Modelled from the spec: an upper-case hexadecimal digit. *)
Definition hex_digit (d : Z) : ascii :=
  default "0"%char (String.get (Z.to_nat d) "0123456789ABCDEF").

(** Modelled from the spec: the [count] low hexadecimal digits of [value],
    most significant first. *)
Fixpoint hex_digits (count : nat) (value : Z) : string :=
  match count with
  | O => EmptyString
  | S count' =>
      String (hex_digit (value / 16 ^ Z.of_nat count' mod 16)) (hex_digits count' value)
  end.

(** Modelled from the spec: "8-hex raw", the [%08X] rendering of a 32-bit
    value. *)
Definition hex8 (value : Z) : string := hex_digits 8 value.

(** Modelled from the spec: the decimal rendering of an integer. *)
Definition decimal (value : Z) : string :=
  DecimalString.NilZero.string_of_int (Z.to_int value).

(** Modelled from the spec: [formatString] for a format with literal text
    and the directives [%08X] and [%d]; [%d] prints its argument as a signed
    [int], the raw 32 bits of section 4.5. *)
Fixpoint formatString (format : string) (argument : Z) : string :=
  match format with
  | EmptyString => EmptyString
  | String "%" (String "0" (String "8" (String "X" rest))) =>
      hex8 argument +:+ formatString rest argument
  | String "%" (String "d" rest) =>
      decimal (i32 argument) +:+ formatString rest argument
  | String c rest => String c (formatString rest argument)
  end.

(** ** Elements handed to the visitor (binary_xml_visitor.h) *)

(** Modelled from the spec: binary_xml_visitor.h is not part of the sources.
    The event variants of section 3, under the class names that the source
    uses for them. *)
Inductive XmlTagElement : Type :=
| StartXmlTagElement (name : string) (attributes : gmap string string)
| EndXmlTagElement (name : string)
| CDataTagElement (text : string)
| InvalidXmlTagElement (reason : string).

(** ** The attribute decoder *)

(** The [switch (attributeValueType)] of [handleAttributes]. *)
Definition attributeValueOf (pool : strings)
    (attributeValueType attributeResourceId attributeValueIndex : Z) : res string :=
  if attributeValueType =? TYPE_NULL rt then
    Ok (if attributeResourceId =? 0 then "<undefined>" else "<empty>")
  else if attributeValueType =? TYPE_REFERENCE rt then
    Ok (formatString "@res/0x%08X" attributeResourceId)
  else if attributeValueType =? TYPE_ATTRIBUTE rt then
    Ok (formatString "@attr/0x%08X" attributeResourceId)
  else if attributeValueType =? TYPE_STRING rt then
    at_index pool attributeValueIndex
  else if attributeValueType =? TYPE_FLOAT rt then Ok EmptyString
  else if attributeValueType =? TYPE_DIMENSION rt then Ok EmptyString
  else if attributeValueType =? TYPE_FRACTION rt then Ok EmptyString
  else if attributeValueType =? TYPE_DYNAMIC_REFERENCE rt then
    Ok (formatString "@dyn/0x%08X" attributeResourceId)
  else if attributeValueType =? TYPE_INT_DEC rt then
    Ok (formatString "%d" attributeResourceId)
  else if attributeValueType =? TYPE_INT_HEX rt then
    Ok (formatString "0x%08X" attributeResourceId)
  else if attributeValueType =? TYPE_INT_BOOLEAN rt then
    Ok (if attributeResourceId =? RES_VALUE_TRUE then "true"
        else if attributeResourceId =? RES_VALUE_FALSE then "false"
        else "unknown")
  else Ok "unknown".

(** The fields of one attribute record, as the loop of [handleAttributes]
    reads them. *)
Record AttributeRecord : Type := mkAttributeRecord {
  attributeNameIndex : Z;
  attributeValueIndex : Z;
  attributeValueType : Z;
  attributeResourceId : Z
}.

(** The seven reads that open a turn of the loop of [handleAttributes]. *)
Definition readAttributeRecord (contents : bytes) (contentsOffset : Z)
    : res (AttributeRecord * Z) :=
  '(_, contentsOffset) ← readBytesAtIndex 4 contents contentsOffset;
  '(nameIndex, contentsOffset) ← readBytesAtIndex 4 contents contentsOffset;
  '(valueIndex, contentsOffset) ← readBytesAtIndex 4 contents contentsOffset;
  '(_, contentsOffset) ← readBytesAtIndex 2 contents contentsOffset;
  '(_, contentsOffset) ← readBytesAtIndex 1 contents contentsOffset;
  '(valueType, contentsOffset) ← readBytesAtIndex 1 contents contentsOffset;
  '(resourceId, contentsOffset) ← readBytesAtIndex 4 contents contentsOffset;
  Ok (mkAttributeRecord nameIndex valueIndex valueType resourceId, contentsOffset).

(** The rest of the turn: the entry the record contributes to the map,
    [None] when the name is empty and the loop [continue]s. *)
Definition attributeEntry (pool : strings) (record : AttributeRecord)
    : res (option (string * string)) :=
  attributeName ← at_index pool (attributeNameIndex record);
  if String.eqb attributeName EmptyString then Ok None else
  attributeValue ← attributeValueOf pool (attributeValueType record)
                     (attributeResourceId record) (attributeValueIndex record);
  Ok (Some (attributeName, attributeValue)).

(** One turn of the loop of [handleAttributes]. *)
Definition readAttribute (contents : bytes) (pool : strings) (contentsOffset : Z)
    : res (option (string * string) * Z) :=
  '(record, contentsOffset) ← readAttributeRecord contents contentsOffset;
  entry ← attributeEntry pool record;
  Ok (entry, contentsOffset).

(** [for (auto i = 0U; i < attributesCount; i++)] with
    [attributes[attributeName] = attributeValue]. *)
Fixpoint attributesLoop (contents : bytes) (pool : strings) (remaining : nat)
    (attributes : gmap string string) (contentsOffset : Z)
    : res (gmap string string * Z) :=
  match remaining with
  | O => Ok (attributes, contentsOffset)
  | S remaining' =>
      '(entry, contentsOffset) ← readAttribute contents pool contentsOffset;
      let attributes :=
        match entry with
        | Some (attributeName, attributeValue) =>
            <[attributeName := attributeValue]> attributes
        | None => attributes
        end in
      attributesLoop contents pool remaining' attributes contentsOffset
  end.

(** [handleAttributes] *)
Definition handleAttributes (contents : bytes) (pool : strings) (contentsOffset : Z)
    : res (gmap string string * Z) :=
  '(attributeMarker, contentsOffset) ← readBytesAtIndex 4 contents contentsOffset;
  if negb (attributeMarker =? XML_ATTRS_MARKER rt) then Ok (∅, contentsOffset) else
  '(attributesCount, contentsOffset) ← readBytesAtIndex 4 contents contentsOffset;
  '(_, contentsOffset) ← readBytesAtIndex 4 contents contentsOffset;
  attributesLoop contents pool (Z.to_nat attributesCount) ∅ contentsOffset.

(** [index >= 0 ? strings[static_cast<uint32_t>(index)] : empty] for an
    index read as [int32_t]. *)
Definition stringOrEmpty (pool : strings) (raw : Z) : res string :=
  if 0 <=? i32 raw then at_index pool (u32 (i32 raw)) else Ok EmptyString.

(** [handleStartElementTag]: the element it hands to the visitor and the
    advanced offset. *)
Definition handleStartElementTag (contents : bytes) (pool : strings) (contentsOffset : Z)
    : res (XmlTagElement * Z) :=
  '(_, contentsOffset) ← readBytesAtIndex 4 contents contentsOffset;
  '(_, contentsOffset) ← readBytesAtIndex 4 contents contentsOffset;
  '(namespaceStringIndex, contentsOffset) ← readBytesAtIndex 4 contents contentsOffset;
  namespaceString ← stringOrEmpty pool namespaceStringIndex;
  '(stringIndex, contentsOffset) ← readBytesAtIndex 4 contents contentsOffset;
  name ← stringOrEmpty pool stringIndex;
  '(attributes, contentsOffset) ← handleAttributes contents pool contentsOffset;
  Ok (StartXmlTagElement name attributes, contentsOffset).

(** [handleEndElementTag] *)
Definition handleEndElementTag (contents : bytes) (pool : strings) (contentsOffset : Z)
    : res (XmlTagElement * Z) :=
  '(_, contentsOffset) ← readBytesAtIndex 4 contents contentsOffset;
  '(_, contentsOffset) ← readBytesAtIndex 4 contents contentsOffset;
  '(namespaceStringIndex, contentsOffset) ← readBytesAtIndex 4 contents contentsOffset;
  namespaceString ← stringOrEmpty pool namespaceStringIndex;
  '(stringIndex, contentsOffset) ← readBytesAtIndex 4 contents contentsOffset;
  name ← stringOrEmpty pool stringIndex;
  Ok (EndXmlTagElement name, contentsOffset).

(** [handleCDataTag]: it takes no visitor; the string is read and logged. *)
Definition handleCDataTag (contents : bytes) (pool : strings) (contentsOffset : Z)
    : res Z :=
  '(_, contentsOffset) ← readBytesAtIndex 4 contents contentsOffset;
  '(_, contentsOffset) ← readBytesAtIndex 4 contents contentsOffset;
  '(stringIndex, contentsOffset) ← readBytesAtIndex 4 contents contentsOffset;
  text ← at_index pool stringIndex;
  '(_, contentsOffset) ← readBytesAtIndex 4 contents contentsOffset;
  '(_, contentsOffset) ← readBytesAtIndex 4 contents contentsOffset;
  Ok contentsOffset.

(** ** The traversal *)

(** The body of the [do ... while] of [traverseXml] up to the end of the
    [switch]: the elements accepted by the visitor in this turn and the
    advanced offset. *)
Definition handleChunk (content : bytes) (tag currentXmlChunkOffset : Z)
    : res (list XmlTagElement * Z) :=
  '(headerSize, currentXmlChunkOffset) ← readBytesAtIndex 2 content currentXmlChunkOffset;
  '(chunkSize, currentXmlChunkOffset) ← readBytesAtIndex 4 content currentXmlChunkOffset;
  pool ← readStrings content;
  if tag =? RES_XML_START_NAMESPACE_TYPE then
    Ok ([], u64 (currentXmlChunkOffset + u32 (chunkSize - 8)))
  else if tag =? RES_XML_RESOURCE_MAP_TYPE then
    Ok ([], u64 (currentXmlChunkOffset + u32 (chunkSize - 8)))
  else if tag =? RES_XML_START_ELEMENT_TYPE then
    '(element, currentXmlChunkOffset) ←
      handleStartElementTag content pool currentXmlChunkOffset;
    Ok ([element], currentXmlChunkOffset)
  else if tag =? RES_XML_END_ELEMENT_TYPE then
    '(element, currentXmlChunkOffset) ←
      handleEndElementTag content pool currentXmlChunkOffset;
    Ok ([element], currentXmlChunkOffset)
  else if tag =? RES_XML_CDATA_TYPE then
    currentXmlChunkOffset ← handleCDataTag content pool currentXmlChunkOffset;
    Ok ([], currentXmlChunkOffset)
  else Ok ([], currentXmlChunkOffset).

(** How a traversal ends: [traverseXml] returns, or an access leaves the
    buffer or the pool, or the converter throws. *)
Inductive ending : Type :=
| Returned
| Faulted (f : fault).

(** A traversal: the elements accepted by the visitor, in order, the
    number of completed turns of the loop, and how it ended. *)
Record run : Type := mkRun {
  visited : list XmlTagElement;
  iterations : nat;
  outcome : ending
}.

(** The [do ... while (tag != RES_XML_END_NAMESPACE_TYPE)] of [traverseXml].
    [fuel] bounds the number of turns; [None] means the bound was reached. *)
Fixpoint traverseLoop (fuel : nat) (content : bytes) (tag currentXmlChunkOffset : Z)
    (seen : list XmlTagElement) (turns : nat) : option run :=
  match fuel with
  | O => None
  | S fuel' =>
      match handleChunk content tag currentXmlChunkOffset with
      | Fail f => Some (mkRun seen turns (Faulted f))
      | Ok (dispatched, currentXmlChunkOffset) =>
          match readBytesAtIndex 2 content currentXmlChunkOffset with
          | Fail f => Some (mkRun (seen ++ dispatched) turns (Faulted f))
          | Ok (tag, currentXmlChunkOffset) =>
              if tag =? RES_XML_END_NAMESPACE_TYPE
              then Some (mkRun (seen ++ dispatched) (S turns) Returned)
              else traverseLoop fuel' content tag currentXmlChunkOffset
                     (seen ++ dispatched) (S turns)
          end
      end
  end.

(** [BinaryXml::traverseXml] *)
Definition traverseXml (fuel : nat) (content : bytes) : option run :=
  match getXmlChunkOffset content with
  | Fail f => Some (mkRun [] 0 (Faulted f))
  | Ok xmlChunkOffset =>
      if xmlChunkOffset =? 0
      then Some (mkRun [InvalidXmlTagElement "chunk offset is zero"] 0 Returned)
      else
        match readBytesAtIndex 2 content xmlChunkOffset with
        | Fail f => Some (mkRun [] 0 (Faulted f))
        | Ok (tag, currentXmlChunkOffset) =>
            traverseLoop fuel content tag currentXmlChunkOffset [] 0
        end
  end.

End Reader.

(** ** The visitor interface (binary_xml_visitor.h) *)

(** Modelled from the spec: binary_xml_visitor.h is not part of the sources.
    The capability set of section 4.4, one [visit] per kind of element, as
    the visitors of the source override it. *)
Class BinaryXmlVisitor (V : Type) : Type := {
  visitStart : string → gmap string string → V → V;
  visitEnd : string → V → V;
  visitCData : string → V → V;
  visitInvalid : string → V → V
}.

(** Modelled from the spec: [accept] dispatches an element to the method
    of its kind. *)
Definition accept {V : Type} `{BinaryXmlVisitor V} (element : XmlTagElement) (visitor : V) : V :=
  match element with
  | StartXmlTagElement name attributes => visitStart name attributes visitor
  | EndXmlTagElement name => visitEnd name visitor
  | CDataTagElement text => visitCData text visitor
  | InvalidXmlTagElement reason => visitInvalid reason visitor
  end.

(** The visitor after a sequence of elements. *)
Definition acceptAll {V : Type} `{BinaryXmlVisitor V} (elements : list XmlTagElement)
    (visitor : V) : V :=
  foldl (λ v element, accept element v) visitor elements.

(** A visitor that counts the calls of [visit(CDataTagElement const &)]. *)
#[global] Instance CDataCounter : BinaryXmlVisitor nat := {|
  visitStart _ _ n := n;
  visitEnd _ n := n;
  visitCData _ n := S n;
  visitInvalid _ n := n
|}.

Definition isCData (element : XmlTagElement) : bool :=
  match element with
  | CDataTagElement _ => true
  | _ => false
  end.

(** ** Concrete instances and buffers

    What is needed to run the embedding on a concrete buffer: a converter
    and the layout of a binary XML document as aapt writes it (an 8-byte
    file header, the string pool chunk, then the XML chunks). *)

Definition byte_of (x : Z) : byte := default x00 (Byte.of_N (Z.to_N (x mod 256))).

Fixpoint le_bytes (width : nat) (x : Z) : bytes :=
  match width with
  | O => []
  | S width' => byte_of x :: le_bytes width' (x / 256)
  end.

Definition le16 : Z → bytes := le_bytes 2.
Definition le32 : Z → bytes := le_bytes 4.

(** One converter, to run the embedding: UTF-16 to UTF-8 as libstdc++ does
    it.  An unpaired surrogate inside the string is an error, and [to_bytes]
    throws [std::range_error]; a high surrogate that ends the string is a
    partial conversion, and [to_bytes] returns what it has converted. *)
Fixpoint utf16_to_utf8_bytes (units : list Z) : res (list Z) :=
  match units with
  | [] => Ok []
  | u :: rest =>
      if u <? 0x80 then
        (λ tail, u :: tail) <$> utf16_to_utf8_bytes rest
      else if u <? 0x800 then
        (λ tail, (0xC0 + u / 64) :: (0x80 + u mod 64) :: tail) <$> utf16_to_utf8_bytes rest
      else if (0xD800 <=? u) && (u <? 0xDC00) then
        match rest with
        | low :: rest' =>
            if (0xDC00 <=? low) && (low <? 0xE000) then
              let cp := 0x10000 + (u - 0xD800) * 0x400 + (low - 0xDC00) in
              (λ tail, (0xF0 + cp / 262144) :: (0x80 + cp / 4096 mod 64)
                         :: (0x80 + cp / 64 mod 64) :: (0x80 + cp mod 64) :: tail)
                <$> utf16_to_utf8_bytes rest'
            else Fail RangeError
        | [] => Ok []
        end
      else if (0xDC00 <=? u) && (u <? 0xE000) then Fail RangeError
      else
        (λ tail, (0xE0 + u / 4096) :: (0x80 + u / 64 mod 64) :: (0x80 + u mod 64) :: tail)
          <$> utf16_to_utf8_bytes rest
  end.

Definition utf16_to_utf8 (units : list Z) : res string :=
  (λ encoded, String.string_of_list_byte (byte_of <$> encoded)) <$> utf16_to_utf8_bytes units.

(** A string pool entry in the UTF-8 layout: the count of UTF-16 units, the
    count of bytes, the bytes, a null byte. *)
Definition utf8_entry (units : Z) (payload : bytes) : bytes :=
  byte_of units :: byte_of (bsize payload) :: payload ++ [x00].

Definition ascii_entry (s : string) : bytes :=
  utf8_entry (bsize (String.list_byte_of_string s)) (String.list_byte_of_string s).

Fixpoint entry_offsets (from : Z) (entries : list bytes) : list Z :=
  match entries with
  | [] => []
  | entry :: rest => from :: entry_offsets (from + bsize entry) rest
  end.

(** A document: file header, string pool chunk (padded to four bytes), XML
    chunks. *)
Definition document (fl : Z) (entries : list bytes) (chunks : bytes) : bytes :=
  let count := Z.of_nat (length entries) in
  let data := concat entries in
  let padding := replicate (Z.to_nat ((- bsize data) mod 4)) x00 in
  let poolSize := 28 + 4 * count + bsize data + bsize padding in
  le32 XML_IDENTIFIER ++ le32 (8 + poolSize + bsize chunks)
    ++ le16 XML_STRING_TABLE ++ le16 28 ++ le32 poolSize
    ++ le32 count ++ le32 0 ++ le32 fl ++ le32 (28 + 4 * count) ++ le32 0
    ++ (entry_offsets 0 entries ≫= le32) ++ data ++ padding ++ chunks.

Definition startNamespace (prefix uri : Z) : bytes :=
  le16 RES_XML_START_NAMESPACE_TYPE ++ le16 16 ++ le32 24
    ++ le32 1 ++ le32 (-1) ++ le32 prefix ++ le32 uri.

Definition endNamespace (prefix uri : Z) : bytes :=
  le16 RES_XML_END_NAMESPACE_TYPE ++ le16 16 ++ le32 24
    ++ le32 1 ++ le32 (-1) ++ le32 prefix ++ le32 uri.

Definition attribute (name rawValue type data : Z) : bytes :=
  le32 (-1) ++ le32 name ++ le32 rawValue ++ le16 8 ++ [x00; byte_of type] ++ le32 data.

Definition startElement (name : Z) (attributes : list bytes) : bytes :=
  let count := Z.of_nat (length attributes) in
  le16 RES_XML_START_ELEMENT_TYPE ++ le16 16 ++ le32 (36 + 20 * count)
    ++ le32 1 ++ le32 (-1) ++ le32 (-1) ++ le32 name
    ++ le32 (XML_ATTRS_MARKER android) ++ le16 count ++ le16 0 ++ le16 0 ++ le16 0
    ++ concat attributes.

Definition endElement (name : Z) : bytes :=
  le16 RES_XML_END_ELEMENT_TYPE ++ le16 16 ++ le32 24
    ++ le32 1 ++ le32 (-1) ++ le32 (-1) ++ le32 name.

Definition cdata (text : Z) : bytes :=
  le16 RES_XML_CDATA_TYPE ++ le16 16 ++ le32 28
    ++ le32 1 ++ le32 (-1) ++ le32 text ++ le16 8 ++ [x00; x03] ++ le32 text.

(** [<manifest package="com.example"><application debuggable=.../></manifest>],
    the value of [debuggable] being the pool string "false". *)
Definition manifest_pool : list bytes :=
  ascii_entry <$> ["manifest"; "application"; "package"; "debuggable";
                   "com.example"; "false"; "android"; "http://schemas.android.com"].

Definition manifest_document : bytes :=
  document RES_FLAG_UTF8 manifest_pool
    (startNamespace 6 7
     ++ startElement 0 [attribute 2 4 (TYPE_STRING android) 4]
     ++ startElement 1 [attribute 3 5 (TYPE_STRING android) 5]
     ++ endElement 1
     ++ endElement 0
     ++ endNamespace 6 7).

(** A buffer that its string pool chunk fills to the last byte: the declared
    chunk size equals the length of the buffer. *)
Definition filled_buffer : bytes :=
  le32 XML_IDENTIFIER ++ le32 16 ++ le16 XML_STRING_TABLE ++ le16 28 ++ le32 16.

Definition manifest_strings : strings :=
  ["manifest"; "application"; "package"; "debuggable";
   "com.example"; "false"; "android"; "http://schemas.android.com"].

(** A UTF-8 pool whose only string is U+00E9: one UTF-16 unit, two bytes. *)
Definition accented_document : bytes :=
  document RES_FLAG_UTF8 [utf8_entry 1 [xc3; xa9]] [].

(** [<p>hello</p>]: a start-element, a cdata chunk, an end-element. *)
Definition cdata_document : bytes :=
  document RES_FLAG_UTF8
    (ascii_entry <$> ["p"; "hello"; "android"; "http://schemas.android.com"])
    (startNamespace 2 3 ++ startElement 0 [] ++ cdata 1 ++ endElement 0
     ++ endNamespace 2 3).

(** An element with two attribute records of the same name. *)
Definition twice_pool : strings := ["item"; "id"; "first"; "second"].

Definition twice_block : bytes :=
  attribute 1 2 (TYPE_STRING android) 2 ++ attribute 1 3 (TYPE_STRING android) 3.

(** A start-element and an end-element whose name index (7) lies outside
    a pool of three strings. *)
Definition stray_index_document : bytes :=
  document RES_FLAG_UTF8
    (ascii_entry <$> ["p"; "android"; "http://schemas.android.com"])
    (startNamespace 1 2 ++ startElement 7 [] ++ endElement 7 ++ endNamespace 1 2).


(** [<item id="first" id="second"/>]: the block [twice_block] in a document. *)
Definition twice_document : bytes :=
  document RES_FLAG_UTF8 (ascii_entry <$> twice_pool)
    (startNamespace 0 0
     ++ startElement 0 [attribute 1 2 (TYPE_STRING android) 2;
                        attribute 1 3 (TYPE_STRING android) 3]
     ++ endElement 0 ++ endNamespace 0 0).

(** ** Views used to state properties *)

(** The entries that the turns of the loop of [handleAttributes] contribute,
    in the order of the records; records with an empty name contribute
    none. *)
Fixpoint attributeEntries (rt : ResourceTypes) (contents : bytes) (pool : strings)
    (remaining : nat) (contentsOffset : Z) : res (list (string * string)) :=
  match remaining with
  | O => Ok []
  | S remaining' =>
      '(entry, contentsOffset) ← readAttribute rt contents pool contentsOffset;
      rest ← attributeEntries rt contents pool remaining' contentsOffset;
      Ok (match entry with
          | Some named => named :: rest
          | None => rest
          end)
  end.

(** [attributes[name] = value] for each entry in turn. *)
Definition assignAll (attributes : gmap string string) (entries : list (string * string))
    : gmap string string :=
  foldl (λ m entry, <[entry.1 := entry.2]> m) attributes entries.

(** A document whose start-namespace chunk declares a chunk size of 4,
    less than the 8 bytes of its own preamble. *)
Definition short_skip_document : bytes :=
  document RES_FLAG_UTF8 (ascii_entry <$> ["p"; "android"])
    (le16 RES_XML_START_NAMESPACE_TYPE ++ le16 16 ++ le32 4
     ++ le32 1 ++ le32 (-1) ++ le32 0 ++ le32 1 ++ endNamespace 0 1).

(** The layout that [readStrings] reads with the UTF-8 flag set: the
    header, one 32-bit offset for each string, and for each string an entry
    of two length bytes that agree, the payload and a null byte; then the
    rest of the file.  The fields of the header that [readStrings] does not
    read are free. *)
Definition utf8_pool_layout (reserved headerSz chunkSz styles fl stringsStart stylesStart : Z)
    (payloads : list bytes) (rest : bytes) : bytes :=
  let entries := (λ payload, utf8_entry (bsize payload) payload) <$> payloads in
  le32 XML_IDENTIFIER ++ le32 reserved ++ le16 XML_STRING_TABLE ++ le16 headerSz
    ++ le32 chunkSz ++ le32 (Z.of_nat (length payloads)) ++ le32 styles ++ le32 fl
    ++ le32 stringsStart ++ le32 stylesStart
    ++ (entry_offsets 0 entries ≫= le32) ++ concat entries ++ rest.

(** What [index >= 0 ? strings[index] : empty] stands for when the index,
    read as [int32_t], is negative or lies within the pool. *)
Definition indexed (pool : strings) (raw : Z) (s : string) : Prop :=
  (i32 raw < 0 ∧ s = EmptyString)
  ∨ (0 ≤ i32 raw ∧ pool !! Z.to_nat (i32 raw) = Some s).

(** A nonnegative index that is not within the pool. *)
Definition stray (pool : strings) (raw : Z) : Prop :=
  Z.of_nat (length pool) ≤ i32 raw.

(** The elements a traversal hands over once the chunk offset is known. *)
Definition isStartOrEnd (element : XmlTagElement) : bool :=
  match element with
  | StartXmlTagElement _ _ | EndXmlTagElement _ => true
  | _ => false
  end.

(** The strings of an element come from [pool]: its name is empty or a
    string of the pool, and the names of its attributes are strings of the
    pool other than the empty string. *)
Definition names_from (pool : strings) (element : XmlTagElement) : Prop :=
  match element with
  | StartXmlTagElement name attributes =>
      (name = EmptyString ∨ name ∈ pool)
      ∧ ∀ key value, attributes !! key = Some value → key ≠ EmptyString ∧ key ∈ pool
  | EndXmlTagElement name => name = EmptyString ∨ name ∈ pool
  | _ => True
  end.

(** ** The facade (apk.cpp) *)

(** The exceptions that apk.cpp throws; apk.h, which declares them, is not
    part of the sources. *)
Inductive ApkException : Type :=
| MissingAndroidManifestException (apkPath : string)
| MalformedAndroidManifestException (apkPath : string).

(** A call returns a value or throws. *)
Inductive call (A : Type) : Type :=
| Returns (a : A)
| Throws (e : ApkException).
Arguments Returns {A} a.
Arguments Throws {A} e.

Definition call_bind {A B : Type} (k : A → call B) (m : call A) : call B :=
  match m with
  | Returns a => k a
  | Throws e => Throws e
  end.

#[global] Instance call_mbind : MBind call := @call_bind.

Definition ANDROID_MANIFEST : string := "AndroidManifest.xml".
Definition ANDROID_MANIFEST_TAG_APPLICATION : string := "application".
Definition ANDROID_MANIFEST_ATTRIBUTE_DEBUGGABLE : string := "debuggable".

(** [std::map::insert]: an entry whose key is present already is left as it
    is. *)
Definition map_insert_new (key value : string) (properties : gmap string string)
    : gmap string string :=
  match properties !! key with
  | Some _ => properties
  | None => <[key := value]> properties
  end.

Section Apk.

(** [ApkParser] (apk_parser.h) and the queries of [BinaryXml] that apk.cpp
    calls ([hasElement], [getElementAttributes], [toStringXml]) are not part
    of the sources: they are parameters.  [ApkParser] reads the archive at
    [apkPath]; the archive is taken not to change during a call.  The
    parameters are functions: a call to them returns, and what they may throw
    is not modelled.  The exceptions of the embedding are the two that
    apk.cpp throws itself. *)
Variable getFiles : string → list string.
Variable getFileContents : string → string → bytes.
Variable hasElement : bytes → string → bool.
Variable getElementAttributes : bytes → list string → gmap string string.
Variable toStringXml : bytes → string.

(** [getAndroidManifestAsBinaryXml]; a [BinaryXml] is the buffer it is
    constructed from. *)
Definition getAndroidManifestAsBinaryXml (apkPath : string) : call bytes :=
  let files := getFiles apkPath in
  let hasAndroidManifest := bool_decide (ANDROID_MANIFEST ∈ files) in
  if negb hasAndroidManifest then Throws (MissingAndroidManifestException apkPath) else
  let contents := getFileContents apkPath ANDROID_MANIFEST in
  if bool_decide (contents = []) then Throws (MissingAndroidManifestException apkPath) else
  Returns contents.

(** The shape shared by [getPackageName], [getVersionName] and
    [getVersionCode]: an attribute of the element [manifest], or the empty
    string. *)
Definition manifestAttribute (apkPath name : string) : string :=
  let androidManifestContents := getFileContents apkPath ANDROID_MANIFEST in
  let elementAttributes := getElementAttributes androidManifestContents ["manifest"] in
  match elementAttributes !! name with
  | Some value => value
  | None => EmptyString
  end.

Definition getPackageName (apkPath : string) : string := manifestAttribute apkPath "package".
Definition getVersionName (apkPath : string) : string :=
  manifestAttribute apkPath "versionName".
Definition getVersionCode (apkPath : string) : string :=
  manifestAttribute apkPath "versionCode".

(** [ApkImpl::isValid]: the [catch] clause handles
    [MissingAndroidManifestException] only. *)
Definition isValid (apkPath : string) : call bool :=
  match getAndroidManifestAsBinaryXml apkPath with
  | Returns androidManifest =>
      Returns (hasElement androidManifest ANDROID_MANIFEST_TAG_APPLICATION)
  | Throws (MissingAndroidManifestException _) => Returns false
  | Throws e => Throws e
  end.

(** [ApkImpl::isDebuggable] *)
Definition isDebuggable (apkPath : string) : call bool :=
  androidManifest ← getAndroidManifestAsBinaryXml apkPath;
  if negb (hasElement androidManifest ANDROID_MANIFEST_TAG_APPLICATION)
  then Throws (MalformedAndroidManifestException apkPath) else
  let elementPath := [ANDROID_MANIFEST_TAG_APPLICATION] in
  let attributes := getElementAttributes androidManifest elementPath in
  match attributes !! ANDROID_MANIFEST_ATTRIBUTE_DEBUGGABLE with
  | Some value => Returns (bool_decide (value = "true"))
  | None => Returns false
  end.

(** [ApkImpl::getAndroidManifest] *)
Definition getAndroidManifest (apkPath : string) : call string :=
  androidManifest ← getAndroidManifestAsBinaryXml apkPath;
  Returns (toStringXml androidManifest).

(** [ApkImpl::getProperties] *)
Definition getProperties (apkPath : string) : call (gmap string string) :=
  isApkValid ← isValid apkPath;
  let properties : gmap string string :=
    {["valid" := if isApkValid : bool then "true" else "false"]} in
  valid ← isValid apkPath;
  if valid : bool then
    debuggable ← isDebuggable apkPath;
    let properties :=
      map_insert_new "debuggable" (if debuggable : bool then "true" else "false")
        properties in
    manifest ← getAndroidManifest apkPath;
    let properties := map_insert_new "manifest" manifest properties in
    let properties := map_insert_new "packageName" (getPackageName apkPath) properties in
    let properties := map_insert_new "versionCode" (getVersionCode apkPath) properties in
    let properties := map_insert_new "versionName" (getVersionName apkPath) properties in
    Returns properties
  else Returns properties.

End Apk.

(** * Properties *)

(** ** Reasoning about results *)

Lemma res_bind_Ok {A B : Type} (k : A → res B) (m : res A) (b : B) :
  m ≫= k = Ok b ↔ ∃ a, m = Ok a ∧ k a = Ok b.
Proof.
  destruct m as [a|f]; simpl; split.
  - intros H. exists a. split; [reflexivity | exact H].
  - intros (a' & Ha & Hk). injection Ha as <-. exact Hk.
  - discriminate.
  - intros (a' & Ha & _). discriminate.
Qed.


Lemma res_fmap_Ok {A B : Type} (g : A → B) (m : res A) (b : B) :
  g <$> m = Ok b ↔ ∃ a, m = Ok a ∧ g a = b.
Proof.
  destruct m as [a|f]; simpl; split.
  - intros [= <-]. exists a. split; reflexivity.
  - intros (a' & [= <-] & <-). reflexivity.
  - discriminate.
  - intros (a' & Ha & _). discriminate.
Qed.

(** Takes apart a hypothesis that says a sequence of fallible steps
    succeeded, one step after the other. *)
Ltac unbind H :=
  repeat first
    [ match type of H with
      | _ ≫= _ = Ok _ =>
          let a := fresh "a" in
          let Hstep := fresh "Hstep" in
          apply res_bind_Ok in H as (a & Hstep & H);
          repeat match type of H with
                 | context [let '(_, _) := ?p in _] => destruct p
                 end;
          cbv beta in H
      | _ <$> _ = Ok _ =>
          let a := fresh "a" in
          let Hstep := fresh "Hstep" in
          apply res_fmap_Ok in H as (a & Hstep & H)
      | Fail _ = Ok _ => discriminate H
      end ].

(** ** Reads *)

Lemma byte_val_range (b : byte) : 0 ≤ byte_val b < 256.
Proof. destruct b; vm_compute; split; congruence. Qed.

Lemma le_value_range (bs : bytes) : 0 ≤ le_value bs < 256 ^ Z.of_nat (length bs).
Proof.
  induction bs as [|b bs IH]; [vm_compute; split; congruence|].
  cbn [le_value length]. rewrite Nat2Z.inj_succ, Z.pow_succ_r by lia.
  pose proof (byte_val_range b). lia.
Qed.

Lemma slice_Ok (data : bytes) (pos n : Z) (bs : bytes) :
  slice data pos n = Ok bs →
  0 ≤ pos ∧ 0 ≤ n ∧ pos + n ≤ bsize data ∧ Z.of_nat (length bs) = n.
Proof.
  unfold slice, bsize.
  destruct (0 <=? pos) eqn:Hpos; [|discriminate].
  destruct (0 <=? n) eqn:Hn; [|discriminate].
  destruct (pos + n <=? Z.of_nat (length data)) eqn:Hend; [|discriminate].
  cbn [andb]. intros [= <-].
  rewrite length_take, length_drop. lia.
Qed.

Lemma slice_in_range (data : bytes) (pos n : Z) :
  0 ≤ pos → 0 ≤ n → pos + n ≤ bsize data →
  slice data pos n = Ok (take (Z.to_nat n) (drop (Z.to_nat pos) data)).
Proof.
  intros Hpos Hn Hend. unfold slice.
  destruct (0 <=? pos) eqn:E1; [|lia].
  destruct (0 <=? n) eqn:E2; [|lia].
  destruct (pos + n <=? bsize data) eqn:E3; [|lia].
  reflexivity.
Qed.

(** A successful read lies within the buffer, yields a value of its width
    and advances the index by its width. *)
Lemma readBytesAtIndex_Ok (width : Z) (data : bytes) (index value index' : Z) :
  readBytesAtIndex width data index = Ok (value, index') →
  0 ≤ index ∧ 0 ≤ width ∧ index + width ≤ bsize data
  ∧ 0 ≤ value < 256 ^ width ∧ index' = u64 (index + width).
Proof.
  unfold readBytesAtIndex. intros H. unbind H.
  injection H as <- <-.
  apply slice_Ok in Hstep as (Hpos & Hn & Hend & Hlen).
  pose proof (le_value_range a) as Hv. rewrite Hlen in Hv.
  repeat split; lia.
Qed.

Lemma readBytesAtIndex_advance (width : Z) (data : bytes) (index value index' : Z) :
  bsize data < 2 ^ 64 →
  readBytesAtIndex width data index = Ok (value, index') →
  0 ≤ index ∧ index' = index + width ∧ index' ≤ bsize data.
Proof.
  intros Hsize H. apply readBytesAtIndex_Ok in H as (H0 & Hw & Hend & _ & ->).
  unfold u64. rewrite Z.mod_small by lia. lia.
Qed.

Lemma header_field_Ok (width : Z) (content : bytes) (offset value : Z) :
  header_field width content offset = Ok value →
  0 ≤ value < 256 ^ width ∧ offset + width ≤ bsize content.
Proof.
  unfold header_field. intros H. unbind H. destruct a as [v i]. simpl in H. subst v.
  apply readBytesAtIndex_Ok in Hstep. lia.
Qed.

(** ** The header and the chunk offset *)

Lemma getXmlChunkOffset_value (content : bytes) (magic ident declared : Z) :
  xmlMagicNumber content = Ok magic →
  stringTableIdentifier content = Ok ident →
  chunkSize content = Ok declared →
  getXmlChunkOffset content =
    Ok (if (magic =? XML_IDENTIFIER) && (ident =? XML_STRING_TABLE)
           && (declared <? bsize content)
        then declared else 0).
Proof.
  intros Hmagic Hident Hsize. unfold getXmlChunkOffset.
  rewrite Hmagic. simpl.
  destruct (magic =? XML_IDENTIFIER); [|reflexivity].
  rewrite Hident. simpl.
  destruct (ident =? XML_STRING_TABLE); [|reflexivity].
  rewrite Hsize. simpl.
  apply header_field_Ok in Hsize as [Hrange _].
  destruct (bsize content <=? declared) eqn:Hle.
  - destruct (declared <? bsize content) eqn:Hlt; [lia | reflexivity].
  - destruct (declared <? bsize content) eqn:Hlt; [|lia].
    f_equal. unfold u64. rewrite Zminus_mod_idemp_r.
    replace (bsize content - (bsize content - declared)) with declared by lia.
    apply Z.mod_small. lia.
Qed.

(** C6 (amended).  When the two magic words and the declared chunk size can
    be read, [getXmlChunkOffset] returns [header.chunkSize] if both magic
    words are valid and the declared size is smaller than the buffer, and 0
    otherwise; so it returns 0 exactly when a magic word is wrong, or the
    declared chunk size is at least the length of the buffer, or the declared
    chunk size is itself 0. *)
Theorem getXmlChunkOffset_spec (content : bytes) (magic ident declared : Z) :
  xmlMagicNumber content = Ok magic →
  stringTableIdentifier content = Ok ident →
  chunkSize content = Ok declared →
  (magic = XML_IDENTIFIER → ident = XML_STRING_TABLE → declared < bsize content →
   getXmlChunkOffset content = Ok declared)
  ∧ (getXmlChunkOffset content = Ok 0 ↔
       magic ≠ XML_IDENTIFIER ∨ ident ≠ XML_STRING_TABLE
       ∨ bsize content ≤ declared ∨ declared = 0).
Proof.
  intros Hmagic Hident Hsize.
  rewrite (getXmlChunkOffset_value content magic ident declared Hmagic Hident Hsize).
  assert (Hinj : ∀ x : Z, @Ok Z x = Ok 0 ↔ x = 0).
  { intros x. split; [intros [= ->] | intros ->]; reflexivity. }
  destruct (magic =? XML_IDENTIFIER) eqn:E1;
    destruct (ident =? XML_STRING_TABLE) eqn:E2;
    destruct (declared <? bsize content) eqn:E3; cbn [andb];
    rewrite Hinj; split; intros; first [reflexivity | lia].
Qed.

(** C8.  When the chunk offset is zero the traversal hands the visitor one
    invalid element with the reason "chunk offset is zero" and returns; the
    loop over the chunks is not entered. *)
Theorem traverseXml_zero_offset (rt : ResourceTypes) (to_bytes : list Z → res string)
    (fuel : nat) (content : bytes) :
  getXmlChunkOffset content = Ok 0 →
  traverseXml rt to_bytes fuel content =
    Some (mkRun [InvalidXmlTagElement "chunk offset is zero"] 0 Returned).
Proof.
  intros Hzero. unfold traverseXml. rewrite Hzero. reflexivity.
Qed.

Lemma getXmlChunkOffset_spec_witness :
  xmlMagicNumber manifest_document = Ok XML_IDENTIFIER
  ∧ stringTableIdentifier manifest_document = Ok XML_STRING_TABLE
  ∧ chunkSize manifest_document = Ok 172
  ∧ getXmlChunkOffset manifest_document = Ok 172.
Proof.
  assert (Hmagic : xmlMagicNumber manifest_document = Ok XML_IDENTIFIER)
    by (vm_compute; reflexivity).
  assert (Hident : stringTableIdentifier manifest_document = Ok XML_STRING_TABLE)
    by (vm_compute; reflexivity).
  assert (Hsize : chunkSize manifest_document = Ok 172) by (vm_compute; reflexivity).
  split; [exact Hmagic|]. split; [exact Hident|]. split; [exact Hsize|].
  apply (proj1 (getXmlChunkOffset_spec manifest_document _ _ _ Hmagic Hident Hsize));
    vm_compute; reflexivity.
Defined.

(** The claim of C6 as it is worded fails on a buffer that its string pool
    chunk fills exactly: both magic words are valid and the declared chunk
    size (16) does not exceed the length of the buffer (16), and the offset
    returned is 0. *)
Lemma getXmlChunkOffset_filled_buffer :
  ¬ (getXmlChunkOffset filled_buffer = Ok 0 ↔
       xmlMagicNumber filled_buffer ≠ Ok XML_IDENTIFIER
       ∨ stringTableIdentifier filled_buffer ≠ Ok XML_STRING_TABLE
       ∨ ∃ declared, chunkSize filled_buffer = Ok declared
                     ∧ bsize filled_buffer < declared).
Proof.
  intros [Hfails _].
  destruct (Hfails ltac:(vm_compute; reflexivity)) as [H | [H | (declared & H & Hlt)]].
  - apply H. vm_compute. reflexivity.
  - apply H. vm_compute. reflexivity.
  - vm_compute in H. injection H as <-. vm_compute in Hlt. discriminate.
Qed.

Lemma traverseXml_zero_offset_witness :
  getXmlChunkOffset filled_buffer = Ok 0
  ∧ traverseXml android utf16_to_utf8 0 filled_buffer =
      Some (mkRun [InvalidXmlTagElement "chunk offset is zero"] 0 Returned).
Proof.
  assert (Hzero : getXmlChunkOffset filled_buffer = Ok 0) by (vm_compute; reflexivity).
  split; [exact Hzero|].
  apply (traverseXml_zero_offset android utf16_to_utf8 0 filled_buffer Hzero).
Defined.

(** ** The attribute decoder *)

Lemma append_empty_r (s : string) : s +:+ EmptyString = s.
Proof.
  induction s as [|c s IH]; [reflexivity|].
  change (String c (s +:+ EmptyString) = String c s). by rewrite IH.
Qed.

Lemma hex8_length (value : Z) : String.length (hex8 value) = 8%nat.
Proof. reflexivity. Qed.

Example hex8_resource_id : hex8 0x7F0A00BC = "7F0A00BC".
Proof. reflexivity. Qed.

Example formatString_decimal : formatString "%d" 0xFFFFFFFE = "-2".
Proof. reflexivity. Qed.

Lemma at_index_lookup (pool : strings) (index : Z) (s : string) :
  0 ≤ index → pool !! Z.to_nat index = Some s → at_index pool index = Ok s.
Proof.
  intros Hindex Hlookup. unfold at_index.
  apply lookup_lt_Some in Hlookup as Hlt.
  destruct (0 <=? index) eqn:E1; [|lia].
  destruct (index <? Z.of_nat (length pool)) eqn:E2; [|lia].
  cbn [andb]. rewrite Hlookup. reflexivity.
Qed.

Lemma at_index_Ok (pool : strings) (index : Z) (s : string) :
  at_index pool index = Ok s ↔ 0 ≤ index ∧ pool !! Z.to_nat index = Some s.
Proof.
  split; [|intros [H1 H2]; by apply at_index_lookup].
  unfold at_index.
  destruct (0 <=? index) eqn:E1; [|discriminate].
  destruct (index <? Z.of_nat (length pool)) eqn:E2; [|discriminate].
  cbn [andb]. destruct (pool !! Z.to_nat index) as [s'|]; [|discriminate].
  intros [= ->]. split; [lia | reflexivity].
Qed.

Lemma at_index_out_of_range (pool : strings) (index : Z) :
  index < 0 ∨ Z.of_nat (length pool) ≤ index → at_index pool index = Fail OutOfBounds.
Proof.
  intros Hout. unfold at_index.
  destruct (0 <=? index) eqn:E1; [|reflexivity].
  destruct (index <? Z.of_nat (length pool)) eqn:E2; [lia | reflexivity].
Qed.

(** Under distinct labels each label selects its own branch. *)
Ltac pick_branch :=
  repeat match goal with
    | |- context [?a =? ?b] =>
        first [ rewrite (Z.eqb_refl a)
              | rewrite (proj2 (Z.eqb_neq a b)) by congruence ]
    end.

(** C7.  The decoder maps a (type, raw value, raw-value-string index) triple
    to the string of the table of section 4.5 of the specification.  The
    decimal of INT_DEC is the [%d] rendering, that is the raw 32 bits read as
    a signed [int]; STRING is the unchecked pool access [strings[index]]. *)
Theorem attributeValueOf_table (rt : ResourceTypes) (pool : strings) (raw index : Z) :
  distinct_labels rt →
  attributeValueOf rt pool (TYPE_NULL rt) raw index
    = Ok (if raw =? 0 then "<undefined>" else "<empty>")
  ∧ attributeValueOf rt pool (TYPE_REFERENCE rt) raw index = Ok ("@res/0x" +:+ hex8 raw)
  ∧ attributeValueOf rt pool (TYPE_ATTRIBUTE rt) raw index = Ok ("@attr/0x" +:+ hex8 raw)
  ∧ attributeValueOf rt pool (TYPE_STRING rt) raw index = at_index pool index
  ∧ (∀ s, 0 ≤ index → pool !! Z.to_nat index = Some s →
          attributeValueOf rt pool (TYPE_STRING rt) raw index = Ok s)
  ∧ attributeValueOf rt pool (TYPE_FLOAT rt) raw index = Ok EmptyString
  ∧ attributeValueOf rt pool (TYPE_DIMENSION rt) raw index = Ok EmptyString
  ∧ attributeValueOf rt pool (TYPE_FRACTION rt) raw index = Ok EmptyString
  ∧ attributeValueOf rt pool (TYPE_DYNAMIC_REFERENCE rt) raw index
      = Ok ("@dyn/0x" +:+ hex8 raw)
  ∧ attributeValueOf rt pool (TYPE_INT_DEC rt) raw index = Ok (decimal (i32 raw))
  ∧ attributeValueOf rt pool (TYPE_INT_HEX rt) raw index = Ok ("0x" +:+ hex8 raw)
  ∧ attributeValueOf rt pool (TYPE_INT_BOOLEAN rt) raw index
      = Ok (if raw =? 0xFFFFFFFF then "true" else if raw =? 0 then "false" else "unknown")
  ∧ (∀ type,
       type ∉ [TYPE_NULL rt; TYPE_REFERENCE rt; TYPE_ATTRIBUTE rt; TYPE_STRING rt;
               TYPE_FLOAT rt; TYPE_DIMENSION rt; TYPE_FRACTION rt;
               TYPE_DYNAMIC_REFERENCE rt; TYPE_INT_DEC rt; TYPE_INT_HEX rt;
               TYPE_INT_BOOLEAN rt] →
       attributeValueOf rt pool type raw index = Ok "unknown").
Proof.
  unfold distinct_labels. rewrite !NoDup_cons, !not_elem_of_cons.
  intros Hdistinct. destruct_and!.
  assert (Hstring : attributeValueOf rt pool (TYPE_STRING rt) raw index = at_index pool index)
    by (unfold attributeValueOf; pick_branch; reflexivity).
  repeat split;
    try (unfold attributeValueOf; pick_branch; cbn [formatString];
         rewrite ?append_empty_r; reflexivity).
  - intros s Hindex Hlookup. rewrite Hstring. by apply at_index_lookup.
  - intros type. rewrite !not_elem_of_cons. intros Hother. destruct_and!.
    unfold attributeValueOf. pick_branch. reflexivity.
Qed.

Lemma attributeValueOf_table_witness :
  distinct_labels android
  ∧ attributeValueOf android ["name"; "label"] (TYPE_REFERENCE android) 0x7F0A00BC 1
      = Ok "@res/0x7F0A00BC"
  ∧ attributeValueOf android ["name"; "label"] (TYPE_STRING android) 1 1 = Ok "label"
  ∧ attributeValueOf android ["name"; "label"] (TYPE_INT_DEC android) 0xFFFFFFFE 1
      = Ok "-2".
Proof.
  assert (Hdistinct : distinct_labels android).
  { unfold distinct_labels. rewrite !NoDup_cons, !not_elem_of_cons.
    repeat split; try (cbn; congruence); try apply not_elem_of_nil. apply NoDup_nil_2. }
  pose proof (attributeValueOf_table android ["name"; "label"] 0x7F0A00BC 1 Hdistinct)
    as (_ & Hreference & _).
  pose proof (attributeValueOf_table android ["name"; "label"] 1 1 Hdistinct)
    as (_ & _ & _ & _ & Hstring & _).
  pose proof (attributeValueOf_table android ["name"; "label"] 0xFFFFFFFE 1 Hdistinct)
    as (_ & _ & _ & _ & _ & _ & _ & _ & _ & Hdec & _).
  split; [exact Hdistinct|]. split; [exact Hreference|].
  split; [apply Hstring; [lia | reflexivity] | exact Hdec].
Defined.

(** ** The string pool *)

Lemma u64_small (x : Z) : 0 ≤ x < 2 ^ 64 → u64 x = x.
Proof. intros H. unfold u64. apply Z.mod_small. exact H. Qed.

(** The index of the i-th offset entry does not wrap for a 32-bit [i]. *)
Lemma offset_entry_index (i : Z) :
  0 ≤ i < 2 ^ 32 →
  u64 (sizeof_BinaryXmlHeader + u64 (i * sizeof_uint32_t)) = sizeof_BinaryXmlHeader + 4 * i.
Proof.
  intros Hi. unfold sizeof_BinaryXmlHeader, sizeof_uint32_t.
  rewrite (u64_small (i * 4)) by lia. rewrite u64_small by lia. lia.
Qed.

Lemma readStringOffsets_Ok (content : bytes) (remaining : nat) :
  ∀ (i : Z) (stringOffsets : list Z),
    0 ≤ i → i + Z.of_nat remaining ≤ 2 ^ 32 →
    readStringOffsets content i remaining = Ok stringOffsets →
    length stringOffsets = remaining
    ∧ ∀ (k : nat) (offset : Z),
        stringOffsets !! k = Some offset →
        ∃ next, readBytesAtIndex 4 content (sizeof_BinaryXmlHeader + 4 * (i + Z.of_nat k))
                = Ok (offset, next).
Proof.
  induction remaining as [|remaining IH]; intros i stringOffsets Hi Hbound H.
  - injection H as <-. split; [reflexivity|]. intros k offset Hk. discriminate.
  - cbn [readStringOffsets] in H. rewrite offset_entry_index in H by lia.
    unbind H. injection H as <-.
    apply IH in Hstep0 as [Hlen Hentries]; [|lia..].
    split; [cbn; by rewrite Hlen|].
    intros [|k] offset Hk.
    + injection Hk as <-. exists z0. rewrite Z.add_0_r. exact Hstep.
    + cbn in Hk. apply Hentries in Hk as [next Hk]. exists next.
      rewrite <- Hk. f_equal. lia.
Qed.

Lemma readEachString_Ok (to_bytes : list Z → res string) (content : bytes)
    (isUtf8Encoded : bool) (startStringsOffset : Z) (stringOffsets : list Z) :
  ∀ pool : strings,
    readEachString to_bytes content isUtf8Encoded startStringsOffset stringOffsets = Ok pool ↔
    Forall2 (λ offset s,
               readString to_bytes content isUtf8Encoded startStringsOffset offset = Ok s)
            stringOffsets pool.
Proof.
  induction stringOffsets as [|offset rest IH]; intros pool; cbn [readEachString].
  - split.
    + intros [= <-]. constructor.
    + intros H. apply Forall2_nil_inv_l in H as ->. reflexivity.
  - split.
    + intros H. unbind H. injection H as <-. constructor; [exact Hstep|]. by apply IH.
    + intros H. apply Forall2_cons_inv_l in H as (s & pool' & Hs & Hrest & ->).
      rewrite Hs. cbn. apply IH in Hrest. rewrite Hrest. reflexivity.
Qed.

(** C9.  On a buffer with a valid magic word and string table identifier,
    the sequence that [readStrings] returns has [header.numStrings] entries,
    and its i-th entry is the string decoded at the i-th offset entry, the
    string data starting after the header and the offsets. *)
Theorem readStrings_entries (to_bytes : list Z → res string) (content : bytes)
    (count : Z) (pool : strings) :
  xmlMagicNumber content = Ok XML_IDENTIFIER →
  stringTableIdentifier content = Ok XML_STRING_TABLE →
  numStrings content = Ok count →
  readStrings to_bytes content = Ok pool →
  Z.of_nat (length pool) = count
  ∧ ∃ fl, flags content = Ok fl
    ∧ ∀ i : nat, Z.of_nat i < count →
        ∃ offset next s,
          readBytesAtIndex 4 content (sizeof_BinaryXmlHeader + 4 * Z.of_nat i)
            = Ok (offset, next)
          ∧ pool !! i = Some s
          ∧ readString to_bytes content (Z.land fl RES_FLAG_UTF8 =? RES_FLAG_UTF8)
              (sizeof_BinaryXmlHeader + 4 * count) offset = Ok s.
Proof.
  intros Hmagic Hident Hcount H. unfold readStrings in H.
  rewrite Hmagic in H. cbn in H. rewrite Hident in H. cbn in H.
  rewrite Hcount in H. cbn in H.
  apply header_field_Ok in Hcount as [Hrange _].
  change (256 ^ 4) with (2 ^ 32) in Hrange.
  unbind H. rename a into stringOffsets, a0 into fl.
  apply readStringOffsets_Ok in Hstep as [Hlen Hoffsets]; [|lia..].
  apply readEachString_Ok in H.
  assert (Hstart : u64 (sizeof_BinaryXmlHeader
                        + u64 (Z.of_nat (length stringOffsets) * sizeof_uint32_t))
                   = sizeof_BinaryXmlHeader + 4 * count).
  { unfold sizeof_BinaryXmlHeader, sizeof_uint32_t. rewrite Hlen.
    rewrite (u64_small (_ * 4)) by lia. rewrite u64_small by lia. lia. }
  rewrite Hstart in H.
  pose proof (Forall2_length _ _ _ H) as Hsame.
  split; [lia|]. exists fl. split; [exact Hstep0|].
  intros i Hi.
  destruct (lookup_lt_is_Some_2 stringOffsets i ltac:(lia)) as [offset Hoffset].
  destruct (Forall2_lookup_l _ _ _ _ _ H Hoffset) as (s & Hs & Hdecoded).
  destruct (Hoffsets i offset Hoffset) as [next Hread].
  exists offset, next, s. rewrite Z.add_0_l in Hread. done.
Qed.

Lemma readStringOffsets_returns (content : bytes) (remaining : nat) :
  ∀ i : Z,
    0 ≤ i → i + Z.of_nat remaining ≤ 2 ^ 32 →
    (∀ k : nat, (k < remaining)%nat →
       ∃ offset next,
         readBytesAtIndex 4 content (sizeof_BinaryXmlHeader + 4 * (i + Z.of_nat k))
         = Ok (offset, next)) →
    ∃ stringOffsets, readStringOffsets content i remaining = Ok stringOffsets.
Proof.
  induction remaining as [|remaining IH]; intros i Hi Hbound Hreadable.
  - exists []. reflexivity.
  - cbn [readStringOffsets]. rewrite offset_entry_index by lia.
    destruct (Hreadable 0%nat ltac:(lia)) as (offset & next & Hread).
    rewrite Z.add_0_r in Hread. rewrite Hread. cbn.
    destruct (IH (i + 1)) as [rest Hrest]; [lia.. | |].
    + intros k Hk. destruct (Hreadable (S k) ltac:(lia)) as (offset' & next' & Hread').
      exists offset', next'. rewrite <- Hread'. f_equal. lia.
    + rewrite Hrest. cbn. eauto.
Qed.

Lemma readEachString_returns (to_bytes : list Z → res string) (content : bytes)
    (isUtf8Encoded : bool) (startStringsOffset : Z) (stringOffsets : list Z) :
  Forall (λ offset, ∃ s, readString to_bytes content isUtf8Encoded startStringsOffset offset
                         = Ok s) stringOffsets →
  ∃ pool, readEachString to_bytes content isUtf8Encoded startStringsOffset stringOffsets
          = Ok pool.
Proof.
  induction 1 as [|offset rest [s Hs] _ [pool Hpool]]; [exists []; reflexivity|].
  exists (s :: pool). cbn [readEachString]. rewrite Hs. cbn. rewrite Hpool. reflexivity.
Qed.

(** [readStrings] returns on every buffer with valid magic words whose
    offset entries can be read and whose strings can be decoded. *)
Lemma readStrings_returns (to_bytes : list Z → res string) (content : bytes)
    (count fl : Z) :
  xmlMagicNumber content = Ok XML_IDENTIFIER →
  stringTableIdentifier content = Ok XML_STRING_TABLE →
  numStrings content = Ok count →
  flags content = Ok fl →
  (∀ i : nat, Z.of_nat i < count →
     ∃ offset next s,
       readBytesAtIndex 4 content (sizeof_BinaryXmlHeader + 4 * Z.of_nat i)
       = Ok (offset, next)
       ∧ readString to_bytes content (Z.land fl RES_FLAG_UTF8 =? RES_FLAG_UTF8)
           (sizeof_BinaryXmlHeader + 4 * count) offset = Ok s) →
  ∃ pool, readStrings to_bytes content = Ok pool.
Proof.
  intros Hmagic Hident Hcount Hflags Hentries. unfold readStrings.
  rewrite Hmagic. cbn. rewrite Hident. cbn. rewrite Hcount. cbn.
  apply header_field_Ok in Hcount as [Hrange _].
  change (256 ^ 4) with (2 ^ 32) in Hrange.
  destruct (readStringOffsets_returns content (Z.to_nat count) 0) as [stringOffsets Hoffsets];
    [lia.. | |].
  { intros k Hk. destruct (Hentries k ltac:(lia)) as (offset & next & _ & Hread & _).
    exists offset, next. rewrite Z.add_0_l. exact Hread. }
  rewrite Hoffsets. cbn. rewrite Hflags. cbn.
  apply readStringOffsets_Ok in Hoffsets as [Hlen Hread]; [|lia..].
  assert (Hstart : u64 (sizeof_BinaryXmlHeader
                        + u64 (Z.of_nat (length stringOffsets) * sizeof_uint32_t))
                   = sizeof_BinaryXmlHeader + 4 * count).
  { unfold sizeof_BinaryXmlHeader, sizeof_uint32_t. rewrite Hlen.
    rewrite (u64_small (_ * 4)) by lia. rewrite u64_small by lia. lia. }
  rewrite Hstart. apply readEachString_returns.
  apply Forall_lookup. intros k offset Hk.
  apply lookup_lt_Some in Hk as Hlt.
  destruct (Hentries k ltac:(lia)) as (offset' & next' & s & Hread' & Hs).
  destruct (Hread k offset Hk) as [next Hread''].
  rewrite Z.add_0_l in Hread''. rewrite Hread' in Hread''. injection Hread'' as -> _.
  exists s. exact Hs.
Qed.

Lemma readStrings_entries_witness :
  readStrings utf16_to_utf8 manifest_document = Ok manifest_strings
  ∧ Z.of_nat (length manifest_strings) = 8.
Proof.
  assert (Hpool : readStrings utf16_to_utf8 manifest_document = Ok manifest_strings)
    by (vm_compute; reflexivity).
  split; [exact Hpool|].
  apply (readStrings_entries utf16_to_utf8 manifest_document 8 manifest_strings);
    [vm_compute; reflexivity .. | exact Hpool].
Defined.

(** What the UTF-8 branch of [readStrings] decodes: the length is the byte
    at the start of the entry, the payload starts two bytes further. *)
Lemma readString_utf8_Ok (to_bytes : list Z → res string) (content : bytes)
    (startStringsOffset offset : Z) (s : string) :
  readString to_bytes content true startStringsOffset offset = Ok s →
  ∃ first next payload,
    readBytesAtIndex 1 content (u64 (startStringsOffset + offset)) = Ok (first, next)
    ∧ slice content (startStringsOffset + offset + 2) first = Ok payload
    ∧ s = String.string_of_list_byte payload.
Proof.
  unfold readString. intros H. unbind H. injection H as <-.
  eexists _, _, _. split; [exact Hstep|]. split; [exact Hstep0 | reflexivity].
Qed.

(** C3.  A UTF-8 entry for U+00E9 holds the length bytes 1 (UTF-16 units)
    and 2 (bytes) and the payload C3 A9.  [readStrings] takes the length from
    the first length byte and returns the one-byte string C3; the second
    length byte is skipped, not read. *)
Theorem readStrings_accented :
  slice accented_document 40 5 = Ok [x01; x02; xc3; xa9; x00]
  ∧ readStrings utf16_to_utf8 accented_document
    = Ok [String.string_of_list_byte [xc3]]
  ∧ readStrings utf16_to_utf8 accented_document
    ≠ Ok [String.string_of_list_byte [xc3; xa9]].
Proof.
  split; [vm_compute; reflexivity|].
  split; [vm_compute; reflexivity|].
  vm_compute. discriminate.
Qed.

(** ** The attribute map *)

Lemma assignAll_snoc (attributes : gmap string string) (entries : list (string * string))
    (name value : string) :
  assignAll attributes (entries ++ [(name, value)])
  = <[name := value]> (assignAll attributes entries).
Proof. unfold assignAll. rewrite foldl_app. reflexivity. Qed.

Lemma assignAll_app (attributes : gmap string string) (l1 l2 : list (string * string)) :
  assignAll attributes (l1 ++ l2) = assignAll (assignAll attributes l1) l2.
Proof. unfold assignAll. apply foldl_app. Qed.

Lemma assignAll_lookup_other (entries : list (string * string)) :
  ∀ (attributes : gmap string string) (name : string),
    name ∉ entries.*1 → assignAll attributes entries !! name = attributes !! name.
Proof.
  induction entries as [|[k v] entries IH]; intros attributes name Hfresh; [reflexivity|].
  cbn in Hfresh. apply not_elem_of_cons in Hfresh as [Hne Hfresh].
  change (assignAll (<[k := v]> attributes) entries !! name = attributes !! name).
  rewrite IH by exact Hfresh. apply lookup_insert_ne. congruence.
Qed.

Lemma assignAll_keeps (entries : list (string * string)) :
  ∀ (attributes : gmap string string) (name : string),
    is_Some (attributes !! name) → is_Some (assignAll attributes entries !! name).
Proof.
  induction entries as [|[k v] entries IH]; intros attributes name Hin; [exact Hin|].
  change (is_Some (assignAll (<[k := v]> attributes) entries !! name)).
  apply IH. destruct (decide (k = name)) as [->|Hne].
  - rewrite lookup_insert_eq. eauto.
  - rewrite lookup_insert_ne by exact Hne. exact Hin.
Qed.

Lemma assignAll_size (entries : list (string * string)) :
  ∀ attributes : gmap string string,
    (size (assignAll attributes entries) ≤ size attributes + length entries)%nat.
Proof.
  induction entries as [|[k v] entries IH]; intros attributes; [cbn; lia|].
  change (size (assignAll (<[k := v]> attributes) entries)
          ≤ size attributes + S (length entries))%nat.
  specialize (IH (<[k := v]> attributes)).
  pose proof (map_size_insert k v attributes) as Hsize.
  destruct (attributes !! k); unfold id in Hsize; cbn [length] in *; lia.
Qed.

(** The loop of [handleAttributes] assigns the entries of its records in
    order, starting from the map it is given. *)
Lemma attributesLoop_assignAll (rt : ResourceTypes) (contents : bytes) (pool : strings)
    (remaining : nat) :
  ∀ (attributes attributes' : gmap string string) (contentsOffset contentsOffset' : Z),
    attributesLoop rt contents pool remaining attributes contentsOffset
      = Ok (attributes', contentsOffset') →
    ∃ entries,
      attributeEntries rt contents pool remaining contentsOffset = Ok entries
      ∧ attributes' = assignAll attributes entries
      ∧ (length entries ≤ remaining)%nat.
Proof.
  induction remaining as [|remaining IH];
    intros attributes attributes' contentsOffset contentsOffset' H.
  - injection H as <- <-. exists []. done.
  - cbn [attributesLoop attributeEntries] in *. unbind H.
    rewrite Hstep. cbn.
    apply IH in H as (entries & -> & -> & Hlen). cbn.
    destruct o as [[k v]|].
    + exists ((k, v) :: entries). split; [reflexivity|]. split; [reflexivity | cbn; lia].
    + exists entries. split; [reflexivity|]. split; [reflexivity | lia].
Qed.

(** The loop of [handleAttributes] on records that share a name: the map
    holds the value of the last record of that name, and it has fewer entries
    than there are records. *)
Lemma attributesLoop_last_record_wins (rt : ResourceTypes) (contents : bytes)
    (pool : strings) (attributesCount : nat) (contentsOffset contentsOffset' : Z)
    (attributes : gmap string string)
    (before between after : list (string * string)) (name earlier later : string) :
  attributesLoop rt contents pool attributesCount ∅ contentsOffset
    = Ok (attributes, contentsOffset') →
  attributeEntries rt contents pool attributesCount contentsOffset
    = Ok (before ++ (name, earlier) :: between ++ (name, later) :: after) →
  name ∉ after.*1 →
  attributes !! name = Some later ∧ (size attributes < attributesCount)%nat.
Proof.
  intros Hloop Hentries Hlast.
  apply attributesLoop_assignAll in Hloop as (entries & Hsame & -> & Hcount).
  rewrite Hentries in Hsame. injection Hsame as <-.
  replace (before ++ (name, earlier) :: between ++ (name, later) :: after)
    with (((before ++ [(name, earlier)]) ++ between) ++ [(name, later)] ++ after) in *
    by (rewrite <- !app_assoc; reflexivity).
  rewrite (assignAll_app _ _ ([(name, later)] ++ after)), (assignAll_app _ [(name, later)] after).
  set (m := assignAll ∅ ((before ++ [(name, earlier)]) ++ between)).
  change (assignAll m [(name, later)]) with (<[name := later]> m).
  split.
  - rewrite assignAll_lookup_other by exact Hlast. apply lookup_insert_eq.
  - assert (Hin : is_Some (m !! name)).
    { subst m. rewrite assignAll_app. apply assignAll_keeps.
      rewrite assignAll_snoc, lookup_insert_eq. eauto. }
    pose proof (assignAll_size after (<[name := later]> m)) as Hafter.
    destruct Hin as [old Hold].
    rewrite (map_size_insert_Some name later m) in Hafter by eauto.
    pose proof (assignAll_size ((before ++ [(name, earlier)]) ++ between) ∅) as Hm.
    fold m in Hm. rewrite map_size_empty in Hm.
    repeat rewrite length_app in Hcount. repeat rewrite length_app in Hm.
    cbn [length] in Hcount, Hm. lia.
Qed.

(** With the marker in place, [handleAttributes] is its loop over
    [attributesCount] records, started on the empty map. *)
Lemma handleAttributes_marked (rt : ResourceTypes) (contents : bytes) (pool : strings)
    (offset marker count unused o1 o2 o3 : Z) :
  readBytesAtIndex 4 contents offset = Ok (marker, o1) →
  marker = XML_ATTRS_MARKER rt →
  readBytesAtIndex 4 contents o1 = Ok (count, o2) →
  readBytesAtIndex 4 contents o2 = Ok (unused, o3) →
  handleAttributes rt contents pool offset
  = attributesLoop rt contents pool (Z.to_nat count) ∅ o3.
Proof.
  intros Hmarker -> Hcount Hunused. unfold handleAttributes.
  rewrite Hmarker. cbn. rewrite Z.eqb_refl. cbn.
  rewrite Hcount. cbn. rewrite Hunused. reflexivity.
Qed.

(** The start element of [twice_document] reaches the visitor with the
    value of the second record. *)
Example traverseXml_twice_document :
  traverseXml android utf16_to_utf8 10 twice_document
  = Some (mkRun [StartXmlTagElement "item" {["id" := "second"]};
                 EndXmlTagElement "item"] 4 Returned).
Proof. vm_compute. reflexivity. Qed.

(** ** What the traversal hands to the visitor *)

Lemma handleStartElementTag_Ok (rt : ResourceTypes) (contents : bytes) (pool : strings)
    (contentsOffset contentsOffset' : Z) (element : XmlTagElement) :
  handleStartElementTag rt contents pool contentsOffset = Ok (element, contentsOffset') →
  ∃ raw name attributes,
    stringOrEmpty pool raw = Ok name ∧ element = StartXmlTagElement name attributes.
Proof.
  unfold handleStartElementTag. intros H. unbind H. injection H as <- <-.
  eexists _, _, _. split; [exact Hstep4 | reflexivity].
Qed.

Lemma handleEndElementTag_Ok (contents : bytes) (pool : strings)
    (contentsOffset contentsOffset' : Z) (element : XmlTagElement) :
  handleEndElementTag contents pool contentsOffset = Ok (element, contentsOffset') →
  ∃ raw name, stringOrEmpty pool raw = Ok name ∧ element = EndXmlTagElement name.
Proof.
  unfold handleEndElementTag. intros H. unbind H. injection H as <- <-.
  eexists _, _. split; [exact Hstep4 | reflexivity].
Qed.

Lemma handleChunk_no_cdata (rt : ResourceTypes) (to_bytes : list Z → res string)
    (content : bytes) (tag offset offset' : Z) (dispatched : list XmlTagElement) :
  handleChunk rt to_bytes content tag offset = Ok (dispatched, offset') →
  Forall (λ element, isCData element = false) dispatched.
Proof.
  unfold handleChunk. intros H. unbind H.
  destruct (tag =? RES_XML_START_NAMESPACE_TYPE); [injection H as <- <-; constructor|].
  destruct (tag =? RES_XML_RESOURCE_MAP_TYPE); [injection H as <- <-; constructor|].
  destruct (tag =? RES_XML_START_ELEMENT_TYPE).
  { unbind H. injection H as <- <-.
    apply handleStartElementTag_Ok in Hstep2 as (raw & name & attributes & _ & ->).
    repeat constructor. }
  destruct (tag =? RES_XML_END_ELEMENT_TYPE).
  { unbind H. injection H as <- <-.
    apply handleEndElementTag_Ok in Hstep2 as (raw & name & _ & ->).
    repeat constructor. }
  destruct (tag =? RES_XML_CDATA_TYPE).
  { unbind H. injection H as <- <-. constructor. }
  injection H as <- <-. constructor.
Qed.

Lemma traverseLoop_no_cdata (rt : ResourceTypes) (to_bytes : list Z → res string)
    (content : bytes) (fuel : nat) :
  ∀ (tag offset : Z) (seen : list XmlTagElement) (turns : nat) (r : run),
    Forall (λ element, isCData element = false) seen →
    traverseLoop rt to_bytes fuel content tag offset seen turns = Some r →
    Forall (λ element, isCData element = false) (visited r).
Proof.
  induction fuel as [|fuel IH]; intros tag offset seen turns r Hseen H; [discriminate|].
  cbn [traverseLoop] in H.
  destruct (handleChunk rt to_bytes content tag offset) as [[dispatched offset1]|f] eqn:Hchunk.
  - apply handleChunk_no_cdata in Hchunk.
    assert (Hall : Forall (λ element, isCData element = false) (seen ++ dispatched))
      by (apply Forall_app; done).
    destruct (readBytesAtIndex 2 content offset1) as [[tag' offset2]|f].
    + destruct (tag' =? RES_XML_END_NAMESPACE_TYPE).
      * injection H as <-. exact Hall.
      * apply IH in H; assumption.
    + injection H as <-. exact Hall.
  - injection H as <-. exact Hseen.
Qed.

(** No traversal hands a cdata element to the visitor, whatever the buffer
    holds: [visit(CDataTagElement const &)] is never reached. *)
Lemma traverseXml_never_cdata (rt : ResourceTypes) (to_bytes : list Z → res string)
    (fuel : nat) (content : bytes) (r : run) :
  traverseXml rt to_bytes fuel content = Some r →
  Forall (λ element, isCData element = false) (visited r).
Proof.
  unfold traverseXml. intros H.
  destruct (getXmlChunkOffset content) as [xmlChunkOffset|f].
  - destruct (xmlChunkOffset =? 0).
    + injection H as <-. repeat constructor.
    + destruct (readBytesAtIndex 2 content xmlChunkOffset) as [[tag offset]|f].
      * eapply traverseLoop_no_cdata; [|exact H]. constructor.
      * injection H as <-. constructor.
  - injection H as <-. constructor.
Qed.

Lemma acceptAll_counts_cdata (elements : list XmlTagElement) :
  ∀ n : nat,
    Forall (λ element, isCData element = false) elements →
    acceptAll elements n = n.
Proof.
  induction elements as [|element elements IH]; intros n Hnone; [reflexivity|].
  apply Forall_cons in Hnone as [Hfirst Hrest].
  change (acceptAll elements (accept element n) = n).
  destruct element; try discriminate; cbn; by apply IH.
Qed.

(** C2.  The document [<p>hello</p>] holds a cdata chunk between the start
    and the end of [p].  The traversal reads the chunk and hands the visitor
    the start and the end element only: no cdata element is constructed, and
    a visitor that counts its cdata visits counts none. *)
Theorem traverseXml_cdata_document :
  slice cdata_document 164 28 = Ok (cdata 1)
  ∧ traverseXml android utf16_to_utf8 10 cdata_document
    = Some (mkRun [StartXmlTagElement "p" ∅; EndXmlTagElement "p"] 5 Returned)
  ∧ acceptAll [StartXmlTagElement "p" ∅; EndXmlTagElement "p"] 0%nat = 0%nat.
Proof.
  split; [vm_compute; reflexivity|].
  split; [vm_compute; reflexivity|].
  reflexivity.
Qed.

(** ** String indices of elements *)

Lemma i32_word (raw : Z) : 0 ≤ raw < 2 ^ 32 → 0 ≤ i32 raw → u32 (i32 raw) = i32 raw.
Proof.
  intros Hraw Hpos. unfold u32. apply Z.mod_small. unfold i32 in *.
  destruct (raw <? 2 ^ 31) eqn:E; lia.
Qed.

Lemma stringOrEmpty_negative (pool : strings) (raw : Z) :
  i32 raw < 0 → stringOrEmpty pool raw = Ok EmptyString.
Proof.
  intros Hneg. unfold stringOrEmpty. destruct (0 <=? i32 raw) eqn:E; [lia | reflexivity].
Qed.

Lemma stringOrEmpty_inside (pool : strings) (raw : Z) (s : string) :
  0 ≤ raw < 2 ^ 32 → 0 ≤ i32 raw → pool !! Z.to_nat (i32 raw) = Some s →
  stringOrEmpty pool raw = Ok s.
Proof.
  intros Hraw Hpos Hlookup. unfold stringOrEmpty.
  destruct (0 <=? i32 raw) eqn:E; [|lia].
  rewrite i32_word by assumption. by apply at_index_lookup.
Qed.

Lemma stringOrEmpty_outside (pool : strings) (raw : Z) :
  0 ≤ raw < 2 ^ 32 → Z.of_nat (length pool) ≤ i32 raw →
  stringOrEmpty pool raw = Fail OutOfBounds.
Proof.
  intros Hraw Hout. unfold stringOrEmpty.
  destruct (0 <=? i32 raw) eqn:E; [|lia].
  rewrite i32_word by lia. apply at_index_out_of_range. lia.
Qed.

(** The claim of C4 as it is worded fails on a document whose start element
    names the string 7 of a pool of three: the traversal hands the visitor
    nothing, neither the element nor an invalid element, and ends in the
    unchecked access. *)
Lemma traverseXml_stray_index :
  traverseXml android utf16_to_utf8 10 stray_index_document
  = Some (mkRun [] 2 (Faulted OutOfBounds)).
Proof. vm_compute. reflexivity. Qed.

(** ** Progress of the traversal *)

Section Progress.

Variable rt : ResourceTypes.
Variable to_bytes : list Z → res string.
Variable content : bytes.
Hypothesis content_size : bsize content < 2 ^ 63.

(** Turns the successful reads among the hypotheses into facts about the
    offsets. *)
Ltac reads :=
  repeat match goal with
    | H : readBytesAtIndex _ content _ = Ok (_, _) |- _ =>
        apply readBytesAtIndex_advance in H as (? & ? & ?); [|lia]
    end.

Lemma readAttributeRecord_advance (offset offset' : Z) (record : AttributeRecord) :
  readAttributeRecord content offset = Ok (record, offset') →
  0 ≤ offset ∧ offset' = offset + 20 ∧ offset' ≤ bsize content.
Proof.
  unfold readAttributeRecord. intros H. unbind H. injection H as <- <-. reads. lia.
Qed.

Lemma readAttribute_advance (pool : strings) (offset offset' : Z)
    (entry : option (string * string)) :
  readAttribute rt content pool offset = Ok (entry, offset') →
  0 ≤ offset ∧ offset' = offset + 20 ∧ offset' ≤ bsize content.
Proof.
  unfold readAttribute. intros H. unbind H. injection H as <- <-.
  by apply readAttributeRecord_advance in Hstep.
Qed.

Lemma attributesLoop_advance (pool : strings) (remaining : nat) :
  ∀ (attributes attributes' : gmap string string) (offset offset' : Z),
    attributesLoop rt content pool remaining attributes offset = Ok (attributes', offset') →
    offset' = offset + 20 * Z.of_nat remaining.
Proof.
  induction remaining as [|remaining IH]; intros attributes attributes' offset offset' H.
  - injection H as <- <-. lia.
  - cbn [attributesLoop] in H. unbind H.
    apply readAttribute_advance in Hstep as (_ & -> & _).
    apply IH in H. lia.
Qed.

Lemma handleAttributes_advance (pool : strings) (offset offset' : Z)
    (attributes : gmap string string) :
  handleAttributes rt content pool offset = Ok (attributes, offset') →
  0 ≤ offset ∧ offset + 4 ≤ offset'.
Proof.
  unfold handleAttributes. intros H. unbind H.
  destruct (negb (z =? XML_ATTRS_MARKER rt)).
  - injection H as <- <-. reads. lia.
  - unbind H. apply attributesLoop_advance in H. reads. lia.
Qed.

Lemma handleStartElementTag_advance (pool : strings) (offset offset' : Z)
    (element : XmlTagElement) :
  handleStartElementTag rt content pool offset = Ok (element, offset') →
  0 ≤ offset ∧ offset + 20 ≤ offset'.
Proof.
  unfold handleStartElementTag. intros H. unbind H. injection H as <- <-.
  apply handleAttributes_advance in Hstep5. reads. lia.
Qed.

Lemma handleEndElementTag_advance (pool : strings) (offset offset' : Z)
    (element : XmlTagElement) :
  handleEndElementTag content pool offset = Ok (element, offset') →
  0 ≤ offset ∧ offset' = offset + 16.
Proof.
  unfold handleEndElementTag. intros H. unbind H. injection H as <- <-. reads. lia.
Qed.

Lemma handleCDataTag_advance (pool : strings) (offset offset' : Z) :
  handleCDataTag content pool offset = Ok offset' →
  0 ≤ offset ∧ offset' = offset + 20.
Proof.
  unfold handleCDataTag. intros H. unbind H. injection H as <-. reads. lia.
Qed.

Lemma skip_advance (offset declared : Z) :
  0 ≤ offset ≤ bsize content →
  offset ≤ u64 (offset + u32 (declared - 8)).
Proof.
  intros Hoffset. unfold u32.
  pose proof (Z.mod_pos_bound (declared - 8) (2 ^ 32) ltac:(lia)) as Hskip.
  rewrite u64_small; lia.
Qed.

Ltac skipped :=
  match goal with
  | |- context [u64 (?a + u32 (?b - 8))] => pose proof (skip_advance a b); lia
  end.

(** A turn of the loop moves the offset at least six bytes forward, past
    the header size and the chunk size it reads. *)
Lemma handleChunk_advance (tag offset offset' : Z) (dispatched : list XmlTagElement) :
  handleChunk rt to_bytes content tag offset = Ok (dispatched, offset') →
  0 ≤ offset ∧ offset + 6 ≤ offset'.
Proof.
  unfold handleChunk. intros H. unbind H. reads.
  destruct (tag =? RES_XML_START_NAMESPACE_TYPE); [injection H as <- <-; skipped|].
  destruct (tag =? RES_XML_RESOURCE_MAP_TYPE); [injection H as <- <-; skipped|].
  destruct (tag =? RES_XML_START_ELEMENT_TYPE).
  { unbind H. injection H as <- <-.
    match goal with
    | Hh : handleStartElementTag _ _ _ _ = Ok _ |- _ =>
        apply handleStartElementTag_advance in Hh
    end. lia. }
  destruct (tag =? RES_XML_END_ELEMENT_TYPE).
  { unbind H. injection H as <- <-.
    match goal with
    | Hh : handleEndElementTag _ _ _ = Ok _ |- _ => apply handleEndElementTag_advance in Hh
    end. lia. }
  destruct (tag =? RES_XML_CDATA_TYPE).
  { unbind H. injection H as <- <-.
    match goal with
    | Hh : handleCDataTag _ _ _ = Ok _ |- _ => apply handleCDataTag_advance in Hh
    end. lia. }
  injection H as <- <-. lia.
Qed.


(** The name of an end element is the pool lookup of the index read twelve
    bytes into the body of the chunk. *)
Lemma handleEndElementTag_name (pool : strings) (offset offset' : Z)
    (element : XmlTagElement) :
  handleEndElementTag content pool offset = Ok (element, offset') →
  ∃ raw next name,
    readBytesAtIndex 4 content (offset + 12) = Ok (raw, next)
    ∧ stringOrEmpty pool raw = Ok name
    ∧ element = EndXmlTagElement name.
Proof.
  unfold handleEndElementTag. intros H. unbind H. injection H as <- <-.
  pose proof (readBytesAtIndex_advance _ content _ _ _ ltac:(lia) Hstep) as (_ & E0 & _).
  pose proof (readBytesAtIndex_advance _ content _ _ _ ltac:(lia) Hstep0) as (_ & E1 & _).
  pose proof (readBytesAtIndex_advance _ content _ _ _ ltac:(lia) Hstep1) as (_ & E2 & _).
  eexists _, _, _. replace (offset + 12) with z4 by lia.
  split; [exact Hstep3|]. split; [exact Hstep4 | reflexivity].
Qed.

(** The same for a start element. *)
Lemma handleStartElementTag_name (pool : strings) (offset offset' : Z)
    (element : XmlTagElement) :
  handleStartElementTag rt content pool offset = Ok (element, offset') →
  ∃ raw next name attributes,
    readBytesAtIndex 4 content (offset + 12) = Ok (raw, next)
    ∧ stringOrEmpty pool raw = Ok name
    ∧ handleAttributes rt content pool next = Ok (attributes, offset')
    ∧ element = StartXmlTagElement name attributes.
Proof.
  unfold handleStartElementTag. intros H. unbind H. injection H as <- <-.
  pose proof (readBytesAtIndex_advance _ content _ _ _ ltac:(lia) Hstep) as (_ & E0 & _).
  pose proof (readBytesAtIndex_advance _ content _ _ _ ltac:(lia) Hstep0) as (_ & E1 & _).
  pose proof (readBytesAtIndex_advance _ content _ _ _ ltac:(lia) Hstep1) as (_ & E2 & _).
  eexists _, _, _, _. replace (offset + 12) with z4 by lia.
  split; [exact Hstep3|]. split; [exact Hstep4|]. split; [exact Hstep5 | reflexivity].
Qed.

(** An index outside the pool in the name field of an end element makes
    the handler end in the unchecked access; no element is produced. *)
Lemma handleEndElementTag_stray (pool : strings) (offset : Z) (v0 v1 ns raw o0 o1 o2 o3 : Z) :
  readBytesAtIndex 4 content offset = Ok (v0, o0) →
  readBytesAtIndex 4 content o0 = Ok (v1, o1) →
  readBytesAtIndex 4 content o1 = Ok (ns, o2) →
  readBytesAtIndex 4 content o2 = Ok (raw, o3) →
  Z.of_nat (length pool) ≤ i32 raw →
  ∃ f, handleEndElementTag content pool offset = Fail f.
Proof.
  intros H0 H1 H2 H3 Hstray. unfold handleEndElementTag.
  rewrite H0. cbn. rewrite H1. cbn. rewrite H2. cbn.
  destruct (stringOrEmpty pool ns) as [namespaceString|f]; cbn; [|eauto].
  rewrite H3. cbn.
  apply readBytesAtIndex_Ok in H3 as (_ & _ & _ & Hraw & _).
  change (256 ^ 4) with (2 ^ 32) in Hraw.
  rewrite (stringOrEmpty_outside pool raw Hraw Hstray). cbn. eauto.
Qed.


End Progress.


(** * Further properties of the reader *)

(** ** The chunk offset lies in the buffer *)

(** Whatever [getXmlChunkOffset] returns is the position of a byte of the
    buffer, and fits 32 bits. *)
Theorem getXmlChunkOffset_in_buffer (content : bytes) (offset : Z) :
  getXmlChunkOffset content = Ok offset →
  0 ≤ offset < bsize content ∧ offset < 2 ^ 32.
Proof.
  unfold getXmlChunkOffset. intros H.
  destruct (xmlMagicNumber content) as [magic|f] eqn:Hmagic; [|discriminate].
  apply header_field_Ok in Hmagic as [_ Hfour]. cbn in H.
  destruct (magic =? XML_IDENTIFIER); cbn in H; [|injection H as <-; lia].
  destruct (stringTableIdentifier content) as [ident|f] eqn:Hident; [|discriminate].
  cbn in H.
  destruct (ident =? XML_STRING_TABLE); cbn in H; [|injection H as <-; lia].
  destruct (chunkSize content) as [declared|f] eqn:Hsize; [|discriminate].
  apply header_field_Ok in Hsize as [Hrange _]. cbn in H.
  destruct (bsize content <=? declared) eqn:Hle; [injection H as <-; lia|].
  injection H as <-. unfold u64. rewrite Zminus_mod_idemp_r.
  replace (bsize content - (bsize content - declared)) with declared by lia.
  rewrite Z.mod_small by lia. change (256 ^ 4) with (2 ^ 32) in Hrange. lia.
Qed.

Lemma getXmlChunkOffset_in_buffer_witness :
  getXmlChunkOffset manifest_document = Ok 172
  ∧ 0 ≤ 172 < bsize manifest_document ∧ 172 < 2 ^ 32.
Proof.
  assert (H : getXmlChunkOffset manifest_document = Ok 172) by (vm_compute; reflexivity).
  split; [exact H|]. exact (getXmlChunkOffset_in_buffer manifest_document 172 H).
Defined.

(** A chunk offset other than zero means that both magic words of the
    header are the expected ones. *)
Lemma getXmlChunkOffset_valid_header (content : bytes) (offset : Z) :
  getXmlChunkOffset content = Ok offset → offset ≠ 0 →
  xmlMagicNumber content = Ok XML_IDENTIFIER
  ∧ stringTableIdentifier content = Ok XML_STRING_TABLE.
Proof.
  unfold getXmlChunkOffset. intros H Hnonzero.
  destruct (xmlMagicNumber content) as [magic|f]; [|discriminate]. cbn in H.
  destruct (magic =? XML_IDENTIFIER) eqn:E1; cbn in H; [|injection H as <-; lia].
  destruct (stringTableIdentifier content) as [ident|f]; [|discriminate]. cbn in H.
  destruct (ident =? XML_STRING_TABLE) eqn:E2; cbn in H; [|injection H as <-; lia].
  apply Z.eqb_eq in E1, E2. subst. split; reflexivity.
Qed.

(** ** Where the attribute decoder can fail *)

(** The decoder of attribute values fails only on a value of type STRING
    whose raw-value-string index lies outside the pool; every other type is
    rendered whatever the pool holds. *)
Theorem attributeValueOf_fails_only_on_string (rt : ResourceTypes) (pool : strings)
    (type raw index : Z) (f : fault) :
  attributeValueOf rt pool type raw index = Fail f →
  type = TYPE_STRING rt ∧ f = OutOfBounds
  ∧ (index < 0 ∨ Z.of_nat (length pool) ≤ index).
Proof.
  unfold attributeValueOf. intros H.
  repeat match type of H with
         | (if ?c then Ok _ else _) = Fail _ => destruct c; [discriminate H|]
         end.
  destruct (type =? TYPE_STRING rt) eqn:E.
  - apply Z.eqb_eq in E. split; [exact E|].
    unfold at_index in H.
    destruct (0 <=? index) eqn:E1; destruct (index <? Z.of_nat (length pool)) eqn:E2;
      cbn [andb] in H; try (injection H as <-; split; [reflexivity | lia]).
    destruct (pool !! Z.to_nat index) eqn:Hlookup; [discriminate|].
    apply lookup_ge_None in Hlookup. lia.
  - repeat match type of H with
           | (if ?c then Ok _ else _) = Fail _ => destruct c; [discriminate H|]
           end.
    discriminate H.
Qed.

Lemma attributeValueOf_fails_only_on_string_witness :
  attributeValueOf android manifest_strings (TYPE_STRING android) 0 8 = Fail OutOfBounds
  ∧ TYPE_STRING android = TYPE_STRING android ∧ OutOfBounds = OutOfBounds
  ∧ (8 < 0 ∨ Z.of_nat (length manifest_strings) ≤ 8).
Proof.
  assert (H : attributeValueOf android manifest_strings (TYPE_STRING android) 0 8
              = Fail OutOfBounds) by (vm_compute; reflexivity).
  split; [exact H|].
  exact (attributeValueOf_fails_only_on_string android manifest_strings
           (TYPE_STRING android) 0 8 OutOfBounds H).
Defined.

(** ** Lengths of decoded strings *)

Lemma string_of_list_byte_length (payload : bytes) :
  String.length (String.string_of_list_byte payload) = length payload.
Proof.
  unfold String.string_of_list_byte.
  induction payload as [|b payload IH]; [reflexivity|]. cbn. by rewrite IH.
Qed.

Lemma readString_utf8_length (to_bytes : list Z → res string) (content : bytes)
    (startStringsOffset offset : Z) (s : string) :
  readString to_bytes content true startStringsOffset offset = Ok s →
  (String.length s ≤ 255)%nat.
Proof.
  intros H. apply readString_utf8_Ok in H as (first & next & payload & Hread & Hslice & ->).
  apply readBytesAtIndex_Ok in Hread as (_ & _ & _ & Hfirst & _).
  apply slice_Ok in Hslice as (_ & _ & _ & Hlength).
  rewrite string_of_list_byte_length. change (256 ^ 1) with 256 in Hfirst. lia.
Qed.

(** With the UTF-8 flag set, no string that [readStrings] returns is longer
    than 255 bytes: the length is a single byte. *)
Theorem readStrings_utf8_short (to_bytes : list Z → res string) (content : bytes)
    (fl : Z) (pool : strings) :
  flags content = Ok fl →
  Z.land fl RES_FLAG_UTF8 = RES_FLAG_UTF8 →
  readStrings to_bytes content = Ok pool →
  Forall (λ s, (String.length s ≤ 255)%nat) pool.
Proof.
  intros Hflags Hutf8 H. unfold readStrings in H.
  destruct (xmlMagicNumber content) as [magic|f]; [|discriminate]. cbn in H.
  destruct (negb (magic =? XML_IDENTIFIER)); [injection H as <-; constructor|].
  destruct (stringTableIdentifier content) as [ident|f]; [|discriminate]. cbn in H.
  destruct (negb (ident =? XML_STRING_TABLE)); [injection H as <-; constructor|].
  unbind H. rewrite Hflags in Hstep1. injection Hstep1 as <-.
  rewrite Hutf8, Z.eqb_refl in H.
  apply readEachString_Ok in H.
  induction H as [|offset s offsets pool' Hs _ IH]; constructor; [|exact IH].
  by apply readString_utf8_length in Hs.
Qed.

Lemma readStrings_utf8_short_witness :
  flags manifest_document = Ok RES_FLAG_UTF8
  ∧ Z.land RES_FLAG_UTF8 RES_FLAG_UTF8 = RES_FLAG_UTF8
  ∧ readStrings utf16_to_utf8 manifest_document = Ok manifest_strings
  ∧ Forall (λ s, (String.length s ≤ 255)%nat) manifest_strings.
Proof.
  assert (Hflags : flags manifest_document = Ok RES_FLAG_UTF8) by (vm_compute; reflexivity).
  assert (Hutf8 : Z.land RES_FLAG_UTF8 RES_FLAG_UTF8 = RES_FLAG_UTF8) by reflexivity.
  assert (Hpool : readStrings utf16_to_utf8 manifest_document = Ok manifest_strings)
    by (vm_compute; reflexivity).
  split; [exact Hflags|]. split; [exact Hutf8|]. split; [exact Hpool|].
  exact (readStrings_utf8_short utf16_to_utf8 manifest_document RES_FLAG_UTF8
           manifest_strings Hflags Hutf8 Hpool).
Defined.

(** ** The pool seen by a traversal *)

(** Once the chunk offset is not zero, [readStrings] does not take either of
    its early returns: the pool it gives each turn of the loop has
    [header.numStrings] entries. *)
Theorem readStrings_in_traversal (to_bytes : list Z → res string) (content : bytes)
    (offset count : Z) (pool : strings) :
  getXmlChunkOffset content = Ok offset → offset ≠ 0 →
  numStrings content = Ok count →
  readStrings to_bytes content = Ok pool →
  Z.of_nat (length pool) = count.
Proof.
  intros Hoffset Hnonzero Hcount H.
  destruct (getXmlChunkOffset_valid_header content offset Hoffset Hnonzero)
    as [Hmagic Hident].
  unfold readStrings in H.
  rewrite Hmagic in H. cbn in H. rewrite Hident in H. cbn in H.
  rewrite Hcount in H. cbn in H.
  apply header_field_Ok in Hcount as [Hrange _].
  change (256 ^ 4) with (2 ^ 32) in Hrange.
  unbind H.
  apply readStringOffsets_Ok in Hstep as [Hlen _]; [|lia..].
  apply readEachString_Ok, Forall2_length in H. lia.
Qed.

Lemma readStrings_in_traversal_witness :
  getXmlChunkOffset manifest_document = Ok 172 ∧ 172 ≠ 0
  ∧ numStrings manifest_document = Ok 8
  ∧ readStrings utf16_to_utf8 manifest_document = Ok manifest_strings
  ∧ Z.of_nat (length manifest_strings) = 8.
Proof.
  assert (Hoffset : getXmlChunkOffset manifest_document = Ok 172)
    by (vm_compute; reflexivity).
  assert (Hnonzero : 172 ≠ 0) by lia.
  assert (Hcount : numStrings manifest_document = Ok 8) by (vm_compute; reflexivity).
  assert (Hpool : readStrings utf16_to_utf8 manifest_document = Ok manifest_strings)
    by (vm_compute; reflexivity).
  split; [exact Hoffset|]. split; [exact Hnonzero|]. split; [exact Hcount|].
  split; [exact Hpool|].
  exact (readStrings_in_traversal utf16_to_utf8 manifest_document 172 8 manifest_strings
           Hoffset Hnonzero Hcount Hpool).
Defined.

(** ** Where the strings of the elements come from *)

Lemma at_index_elem (pool : strings) (index : Z) (s : string) :
  at_index pool index = Ok s → s ∈ pool.
Proof.
  intros H. apply at_index_Ok in H as [_ Hlookup].
  by eapply list_elem_of_lookup_2.
Qed.

Lemma stringOrEmpty_from_pool (pool : strings) (raw : Z) (name : string) :
  stringOrEmpty pool raw = Ok name → name = EmptyString ∨ name ∈ pool.
Proof.
  unfold stringOrEmpty. destruct (0 <=? i32 raw).
  - intros H. right. by eapply at_index_elem.
  - intros [= <-]. by left.
Qed.

Lemma attributeEntry_name (rt : ResourceTypes) (pool : strings) (record : AttributeRecord)
    (key value : string) :
  attributeEntry rt pool record = Ok (Some (key, value)) →
  key ≠ EmptyString ∧ key ∈ pool.
Proof.
  unfold attributeEntry. intros H. unbind H.
  destruct (String.eqb a EmptyString) eqn:Hempty; [discriminate|].
  unbind H. injection H as <- <-.
  split; [by apply String.eqb_neq | by eapply at_index_elem].
Qed.

Lemma attributeEntries_names (rt : ResourceTypes) (contents : bytes) (pool : strings)
    (remaining : nat) :
  ∀ (offset : Z) (entries : list (string * string)),
    attributeEntries rt contents pool remaining offset = Ok entries →
    Forall (λ entry, entry.1 ≠ EmptyString ∧ entry.1 ∈ pool) entries.
Proof.
  induction remaining as [|remaining IH]; intros offset entries H.
  - injection H as <-. constructor.
  - cbn [attributeEntries] in H. unbind H. injection H as <-.
    apply IH in Hstep0.
    destruct o as [[key value]|]; [|exact Hstep0].
    constructor; [|exact Hstep0].
    unfold readAttribute in Hstep. unbind Hstep. injection Hstep as -> _.
    by eapply attributeEntry_name.
Qed.

Lemma assignAll_lookup_Some (entries : list (string * string)) :
  ∀ (attributes : gmap string string) (key value : string),
    assignAll attributes entries !! key = Some value →
    attributes !! key = Some value ∨ (key, value) ∈ entries.
Proof.
  induction entries as [|[k v] entries IH]; intros attributes key value H; [by left|].
  change (assignAll (<[k := v]> attributes) entries !! key = Some value) in H.
  apply IH in H as [H|H]; [|right; by apply elem_of_cons; right].
  apply lookup_insert_Some in H as [[-> ->]|[_ H]]; [right; apply elem_of_cons; by left | by left].
Qed.

Lemma handleAttributes_keys (rt : ResourceTypes) (contents : bytes) (pool : strings)
    (offset offset' : Z) (attributes : gmap string string) :
  handleAttributes rt contents pool offset = Ok (attributes, offset') →
  ∀ key value, attributes !! key = Some value → key ≠ EmptyString ∧ key ∈ pool.
Proof.
  unfold handleAttributes. intros H key value Hkey. unbind H.
  destruct (negb (z =? XML_ATTRS_MARKER rt)).
  { injection H as <- _. by rewrite lookup_empty in Hkey. }
  unbind H.
  apply attributesLoop_assignAll in H as (entries & Hentries & -> & _).
  apply assignAll_lookup_Some in Hkey as [Hkey|Hkey]; [by rewrite lookup_empty in Hkey|].
  apply attributeEntries_names in Hentries.
  rewrite Forall_forall in Hentries. exact (Hentries (key, value) Hkey).
Qed.

Lemma handleChunk_elements (rt : ResourceTypes) (to_bytes : list Z → res string)
    (content : bytes) (pool : strings) (tag offset offset' : Z)
    (dispatched : list XmlTagElement) :
  readStrings to_bytes content = Ok pool →
  handleChunk rt to_bytes content tag offset = Ok (dispatched, offset') →
  Forall (λ element, isStartOrEnd element = true ∧ names_from pool element) dispatched
  ∧ (length dispatched ≤ 1)%nat.
Proof.
  unfold handleChunk. intros Hpool H. unbind H.
  rewrite Hpool in Hstep1. injection Hstep1 as <-.
  destruct (tag =? RES_XML_START_NAMESPACE_TYPE);
    [injection H as <- <-; split; [constructor | cbn; lia]|].
  destruct (tag =? RES_XML_RESOURCE_MAP_TYPE);
    [injection H as <- <-; split; [constructor | cbn; lia]|].
  destruct (tag =? RES_XML_START_ELEMENT_TYPE).
  { unbind H. injection H as <- <-. split; [|cbn; lia].
    constructor; [|constructor].
    unfold handleStartElementTag in Hstep1. unbind Hstep1. injection Hstep1 as <- <-.
    split; [reflexivity|]. split; [by eapply stringOrEmpty_from_pool|].
    by eapply handleAttributes_keys. }
  destruct (tag =? RES_XML_END_ELEMENT_TYPE).
  { unbind H. injection H as <- <-. split; [|cbn; lia].
    constructor; [|constructor].
    unfold handleEndElementTag in Hstep1. unbind Hstep1. injection Hstep1 as <- <-.
    split; [reflexivity|]. by eapply stringOrEmpty_from_pool. }
  destruct (tag =? RES_XML_CDATA_TYPE).
  { unbind H. injection H as <- <-. split; [constructor | cbn; lia]. }
  injection H as <- <-. split; [constructor | cbn; lia].
Qed.

(** When [readStrings] fails, no chunk is handled. *)
Lemma handleChunk_without_pool (rt : ResourceTypes) (to_bytes : list Z → res string)
    (content : bytes) (tag offset : Z) (f : fault) :
  readStrings to_bytes content = Fail f →
  ∃ f', handleChunk rt to_bytes content tag offset = Fail f'.
Proof.
  intros Hpool. unfold handleChunk.
  destruct (readBytesAtIndex 2 content offset) as [[v o]|f0]; cbn; [|eauto].
  destruct (readBytesAtIndex 4 content o) as [[v' o']|f0]; cbn; [|eauto].
  rewrite Hpool. cbn. eauto.
Qed.

Lemma traverseLoop_elements (rt : ResourceTypes) (to_bytes : list Z → res string)
    (content : bytes) (P : XmlTagElement → Prop) (fuel : nat) :
  (∀ tag offset dispatched offset',
     handleChunk rt to_bytes content tag offset = Ok (dispatched, offset') →
     Forall P dispatched) →
  ∀ (tag offset : Z) (seen : list XmlTagElement) (turns : nat) (r : run),
    Forall P seen →
    traverseLoop rt to_bytes fuel content tag offset seen turns = Some r →
    Forall P (visited r).
Proof.
  intros Hchunks.
  induction fuel as [|fuel IH]; intros tag offset seen turns r Hseen H; [discriminate|].
  cbn [traverseLoop] in H.
  destruct (handleChunk rt to_bytes content tag offset) as [[dispatched offset1]|f] eqn:Hchunk;
    [|injection H as <-; exact Hseen].
  apply Hchunks in Hchunk.
  assert (Hall : Forall P (seen ++ dispatched)) by (apply Forall_app; done).
  destruct (readBytesAtIndex 2 content offset1) as [[tag' offset2]|f];
    [|injection H as <-; exact Hall].
  destruct (tag' =? RES_XML_END_NAMESPACE_TYPE); [injection H as <-; exact Hall|].
  by eapply IH.
Qed.

(** Every name that a traversal hands to the visitor is a string of the
    decoded pool or, for the name of an element, the empty string; the empty
    string is never the name of an attribute. *)
Theorem traverseXml_names_from_pool (rt : ResourceTypes) (to_bytes : list Z → res string)
    (fuel : nat) (content : bytes) (pool : strings) (r : run) :
  readStrings to_bytes content = Ok pool →
  traverseXml rt to_bytes fuel content = Some r →
  Forall (names_from pool) (visited r).
Proof.
  intros Hpool H. unfold traverseXml in H.
  destruct (getXmlChunkOffset content) as [xmlChunkOffset|f];
    [|injection H as <-; constructor].
  destruct (xmlChunkOffset =? 0); [injection H as <-; repeat constructor|].
  destruct (readBytesAtIndex 2 content xmlChunkOffset) as [[tag offset]|f];
    [|injection H as <-; constructor].
  eapply traverseLoop_elements; [|constructor|exact H].
  intros tag' offset' dispatched offset'' Hchunk.
  destruct (handleChunk_elements rt to_bytes content pool _ _ _ _ Hpool Hchunk) as [Hall _].
  eapply Forall_impl; [exact Hall|]. by intros element [_ Hnames].
Qed.

Lemma traverseXml_names_from_pool_witness :
  readStrings utf16_to_utf8 twice_document = Ok twice_pool
  ∧ traverseXml android utf16_to_utf8 10 twice_document
    = Some (mkRun [StartXmlTagElement "item" {["id" := "second"]};
                   EndXmlTagElement "item"] 4 Returned)
  ∧ Forall (names_from twice_pool)
      [StartXmlTagElement "item" {["id" := "second"]}; EndXmlTagElement "item"].
Proof.
  assert (Hpool : readStrings utf16_to_utf8 twice_document = Ok twice_pool)
    by (vm_compute; reflexivity).
  assert (Hrun : traverseXml android utf16_to_utf8 10 twice_document
                 = Some (mkRun [StartXmlTagElement "item" {["id" := "second"]};
                                EndXmlTagElement "item"] 4 Returned))
    by (vm_compute; reflexivity).
  split; [exact Hpool|]. split; [exact Hrun|].
  exact (traverseXml_names_from_pool android utf16_to_utf8 10 twice_document twice_pool
           _ Hpool Hrun).
Defined.

(** Once the chunk offset is not zero, the visitor receives start and end
    elements only: neither a cdata nor an invalid element. *)
Theorem traverseXml_start_end_only (rt : ResourceTypes) (to_bytes : list Z → res string)
    (fuel : nat) (content : bytes) (offset : Z) (r : run) :
  getXmlChunkOffset content = Ok offset → offset ≠ 0 →
  traverseXml rt to_bytes fuel content = Some r →
  Forall (λ element, isStartOrEnd element = true) (visited r).
Proof.
  intros Hoffset Hnonzero H. unfold traverseXml in H. rewrite Hoffset in H.
  destruct (offset =? 0) eqn:E; [lia|].
  destruct (readBytesAtIndex 2 content offset) as [[tag offset1]|f];
    [|injection H as <-; constructor].
  eapply traverseLoop_elements; [|constructor|exact H].
  intros tag' offset' dispatched offset'' Hchunk.
  destruct (readStrings to_bytes content) as [pool|f] eqn:Hpool.
  - destruct (handleChunk_elements rt to_bytes content pool _ _ _ _ Hpool Hchunk)
      as [Hall _].
    eapply Forall_impl; [exact Hall|]. by intros element [Hkind _].
  - destruct (handleChunk_without_pool rt to_bytes content tag' offset' f Hpool)
      as [f' Hfail].
    rewrite Hfail in Hchunk. discriminate.
Qed.

Lemma traverseXml_start_end_only_witness :
  getXmlChunkOffset cdata_document = Ok 96 ∧ 96 ≠ 0
  ∧ traverseXml android utf16_to_utf8 10 cdata_document
    = Some (mkRun [StartXmlTagElement "p" ∅; EndXmlTagElement "p"] 5 Returned)
  ∧ Forall (λ element, isStartOrEnd element = true)
      [StartXmlTagElement "p" ∅; EndXmlTagElement "p"].
Proof.
  assert (Hoffset : getXmlChunkOffset cdata_document = Ok 96) by (vm_compute; reflexivity).
  assert (Hnonzero : 96 ≠ 0) by lia.
  assert (Hrun : traverseXml android utf16_to_utf8 10 cdata_document
                 = Some (mkRun [StartXmlTagElement "p" ∅; EndXmlTagElement "p"] 5 Returned))
    by (vm_compute; reflexivity).
  split; [exact Hoffset|]. split; [exact Hnonzero|]. split; [exact Hrun|].
  exact (traverseXml_start_end_only android utf16_to_utf8 10 cdata_document 96 _
           Hoffset Hnonzero Hrun).
Defined.

(** ** Where the cursor goes *)

Lemma readBytesAtIndex_beyond (width : Z) (data : bytes) (index : Z) :
  bsize data < index + width → readBytesAtIndex width data index = Fail OutOfBounds.
Proof.
  intros Hbeyond. unfold readBytesAtIndex, slice.
  destruct (0 <=? index); destruct (0 <=? width); cbn [andb]; try reflexivity.
  destruct (index + width <=? bsize data) eqn:E; [lia | reflexivity].
Qed.

Lemma handleChunk_at_most_one (rt : ResourceTypes) (to_bytes : list Z → res string)
    (content : bytes) (tag offset offset' : Z) (dispatched : list XmlTagElement) :
  handleChunk rt to_bytes content tag offset = Ok (dispatched, offset') →
  (length dispatched ≤ 1)%nat.
Proof.
  intros Hchunk.
  destruct (readStrings to_bytes content) as [pool|f] eqn:Hpool.
  - by destruct (handleChunk_elements rt to_bytes content pool _ _ _ _ Hpool Hchunk).
  - destruct (handleChunk_without_pool rt to_bytes content tag offset f Hpool) as [f' Hfail].
    rewrite Hfail in Hchunk. discriminate.
Qed.

Section Cursor.

Variable rt : ResourceTypes.
Variable to_bytes : list Z → res string.
Variable content : bytes.
Hypothesis content_size : bsize content < 2 ^ 63.

Ltac positions :=
  repeat match goal with
    | H : readBytesAtIndex _ content _ = Ok (_, _) |- _ =>
        apply readBytesAtIndex_advance in H as (? & ? & ?); [|lia]
    end.

(** [handleAttributes] reads the marker.  When the marker is not the
    expected one it returns the empty map and has read those four bytes;
    when it is, it has read the twelve bytes of the block header and twenty
    bytes for each of the [attributesCount] records, and its map has at most
    [attributesCount] entries. *)
Theorem handleAttributes_cursor (pool : strings) (offset offset' : Z)
    (attributes : gmap string string) :
  handleAttributes rt content pool offset = Ok (attributes, offset') →
  ∃ marker next,
    readBytesAtIndex 4 content offset = Ok (marker, next)
    ∧ ((marker ≠ XML_ATTRS_MARKER rt ∧ attributes = ∅ ∧ offset' = offset + 4)
       ∨ (marker = XML_ATTRS_MARKER rt
          ∧ ∃ attributesCount next',
              readBytesAtIndex 4 content (offset + 4) = Ok (attributesCount, next')
              ∧ offset' = offset + 12 + 20 * attributesCount
              ∧ Z.of_nat (size attributes) ≤ attributesCount)).
Proof.
  unfold handleAttributes. intros H. unbind H.
  exists z, z0. split; [exact Hstep|].
  destruct (z =? XML_ATTRS_MARKER rt) eqn:Hmarker; cbn [negb] in H.
  2:{ injection H as <- <-. left. apply Z.eqb_neq in Hmarker. positions.
      split; [exact Hmarker|]. split; [reflexivity | lia]. }
  apply Z.eqb_eq in Hmarker. unbind H. right. split; [exact Hmarker|].
  pose proof (readBytesAtIndex_Ok _ _ _ _ _ Hstep0) as (_ & _ & _ & Hcount & _).
  pose proof (readBytesAtIndex_advance _ content _ _ _ ltac:(lia) Hstep) as (_ & Hnext & _).
  rewrite Hnext in Hstep0.
  eexists _, _. split; [exact Hstep0|].
  pose proof (attributesLoop_advance rt content content_size _ _ _ _ _ _ H) as Hend.
  apply attributesLoop_assignAll in H as (entries & _ & -> & Hentries).
  pose proof (assignAll_size entries ∅) as Hsize. rewrite map_size_empty in Hsize.
  positions. split; lia.
Qed.

(** How far a turn of the loop moves the cursor, [offset] being the
    position after the tag.  The chunk size of the preamble is honoured for
    start-namespace and resource-map chunks only; an end element moves the
    cursor 22 bytes, a cdata chunk 26 bytes, an unknown tag the 6 bytes of
    the rest of the preamble. *)
Theorem handleChunk_cursor (tag offset offset' : Z) (dispatched : list XmlTagElement) :
  handleChunk rt to_bytes content tag offset = Ok (dispatched, offset') →
  ∃ declared next,
    readBytesAtIndex 4 content (offset + 2) = Ok (declared, next)
    ∧ (tag = RES_XML_START_NAMESPACE_TYPE ∨ tag = RES_XML_RESOURCE_MAP_TYPE →
       dispatched = [] ∧ offset' = offset + 6 + u32 (declared - 8)
       ∧ (8 ≤ declared → offset' = offset - 2 + declared))
    ∧ (tag = RES_XML_END_ELEMENT_TYPE → offset' = offset + 22)
    ∧ (tag = RES_XML_CDATA_TYPE → dispatched = [] ∧ offset' = offset + 26)
    ∧ (tag ∉ [RES_XML_START_NAMESPACE_TYPE; RES_XML_RESOURCE_MAP_TYPE;
              RES_XML_START_ELEMENT_TYPE; RES_XML_END_ELEMENT_TYPE;
              RES_XML_CDATA_TYPE] →
       dispatched = [] ∧ offset' = offset + 6).
Proof.
  unfold handleChunk. intros H. unbind H.
  pose proof (readBytesAtIndex_Ok _ _ _ _ _ Hstep0) as (_ & _ & _ & Hdeclared & _).
  change (256 ^ 4) with (2 ^ 32) in Hdeclared.
  pose proof (readBytesAtIndex_advance _ content _ _ _ ltac:(lia) Hstep) as (Hoffset & -> & _).
  exists z1, z2. split; [exact Hstep0|].
  pose proof (readBytesAtIndex_advance _ content _ _ _ ltac:(lia) Hstep0) as (_ & -> & Hin).
  assert (Hskip : u64 (offset + 2 + 4 + u32 (z1 - 8)) = offset + 6 + u32 (z1 - 8)).
  { pose proof (Z.mod_pos_bound (z1 - 8) (2 ^ 32) ltac:(lia)). unfold u32 in *.
    rewrite u64_small; lia. }
  assert (Hexact : 8 ≤ z1 → u32 (z1 - 8) = z1 - 8).
  { intros Hlarge. unfold u32. apply Z.mod_small. lia. }
  rewrite !not_elem_of_cons.
  unfold RES_XML_START_NAMESPACE_TYPE, RES_XML_RESOURCE_MAP_TYPE,
    RES_XML_START_ELEMENT_TYPE, RES_XML_END_ELEMENT_TYPE, RES_XML_CDATA_TYPE in *.
  destruct (tag =? 256) eqn:E1.
  { injection H as <- <-. rewrite Hskip. repeat split; intros; lia. }
  destruct (tag =? 384) eqn:E2.
  { injection H as <- <-. rewrite Hskip. repeat split; intros; lia. }
  destruct (tag =? 258) eqn:E3.
  { repeat split; intros; lia. }
  destruct (tag =? 259) eqn:E4.
  { unbind H. injection H as <- <-.
    match goal with
    | Hh : handleEndElementTag _ _ _ = Ok _ |- _ =>
        apply (handleEndElementTag_advance content content_size) in Hh
    end.
    repeat split; intros; lia. }
  destruct (tag =? 260) eqn:E5.
  { unbind H. injection H as <- <-.
    match goal with
    | Hh : handleCDataTag _ _ _ = Ok _ |- _ =>
        apply (handleCDataTag_advance content content_size) in Hh
    end.
    repeat split; intros; lia. }
  injection H as <- <-. repeat split; intros; lia.
Qed.

Lemma traverseLoop_count (fuel : nat) :
  ∀ (tag offset : Z) (seen : list XmlTagElement) (turns : nat) (r : run),
    0 ≤ offset ≤ bsize content →
    traverseLoop rt to_bytes fuel content tag offset seen turns = Some r →
    (turns ≤ iterations r)%nat
    ∧ (length (visited r) + turns ≤ length seen + iterations r + 1)%nat
    ∧ 8 * (Z.of_nat (iterations r) - Z.of_nat turns) ≤ bsize content - offset.
Proof.
  induction fuel as [|fuel IH]; intros tag offset seen turns r Hoffset H; [discriminate|].
  cbn [traverseLoop] in H.
  destruct (handleChunk rt to_bytes content tag offset) as [[dispatched offset1]|f] eqn:Hchunk;
    [|injection H as <-; cbn; lia].
  pose proof (handleChunk_at_most_one _ _ _ _ _ _ _ Hchunk) as Hone.
  apply (handleChunk_advance rt to_bytes content content_size) in Hchunk.
  destruct (readBytesAtIndex 2 content offset1) as [[tag' offset2]|f] eqn:Hread;
    [|injection H as <-; cbn; rewrite length_app; lia].
  positions.
  destruct (tag' =? RES_XML_END_NAMESPACE_TYPE);
    [injection H as <-; cbn; rewrite length_app; lia|].
  apply IH in H; [|lia]. rewrite length_app in H. lia.
Qed.

End Cursor.

Lemma handleAttributes_cursor_witness :
  bsize twice_document < 2 ^ 63
  ∧ handleAttributes android twice_document twice_pool 132 = Ok ({["id" := "second"]}, 184)
  ∧ ∃ marker next,
      readBytesAtIndex 4 twice_document 132 = Ok (marker, next)
      ∧ ((marker ≠ XML_ATTRS_MARKER android
          ∧ ({["id" := "second"]} : gmap string string) = ∅ ∧ 184 = 132 + 4)
         ∨ (marker = XML_ATTRS_MARKER android
            ∧ ∃ attributesCount next',
                readBytesAtIndex 4 twice_document (132 + 4) = Ok (attributesCount, next')
                ∧ 184 = 132 + 12 + 20 * attributesCount
                ∧ Z.of_nat (size ({["id" := "second"]} : gmap string string))
                  ≤ attributesCount)).
Proof.
  assert (Hsize : bsize twice_document < 2 ^ 63) by (vm_compute; reflexivity).
  assert (Hblock : handleAttributes android twice_document twice_pool 132
                   = Ok ({["id" := "second"]}, 184)) by (vm_compute; reflexivity).
  split; [exact Hsize|]. split; [exact Hblock|].
  exact (handleAttributes_cursor android twice_document Hsize twice_pool 132 184 _ Hblock).
Defined.

Lemma handleChunk_cursor_witness :
  bsize cdata_document < 2 ^ 63
  ∧ handleChunk android utf16_to_utf8 cdata_document RES_XML_CDATA_TYPE 166 = Ok ([], 192)
  ∧ ∃ declared next,
      readBytesAtIndex 4 cdata_document (166 + 2) = Ok (declared, next)
      ∧ 192 = 166 + 26.
Proof.
  assert (Hsize : bsize cdata_document < 2 ^ 63) by (vm_compute; reflexivity).
  assert (Hchunk : handleChunk android utf16_to_utf8 cdata_document RES_XML_CDATA_TYPE 166
                   = Ok ([], 192)) by (vm_compute; reflexivity).
  split; [exact Hsize|]. split; [exact Hchunk|].
  destruct (handleChunk_cursor android utf16_to_utf8 cdata_document Hsize
              RES_XML_CDATA_TYPE 166 192 [] Hchunk)
    as (declared & next & Hread & _ & _ & Hcdata & _).
  exists declared, next. split; [exact Hread|]. by apply Hcdata.
Defined.

(** Where the vector is indexed with 64 bits and the buffer has fewer than
    2^63 bytes: up to the end of the run, which is the return of
    [traverseXml] or the first access outside the buffer or the pool, the
    visitor receives at most one element for every eight bytes of the
    buffer, and one more. *)
Theorem traverseXml_visited_bound (rt : ResourceTypes) (to_bytes : list Z → res string)
    (fuel : nat) (content : bytes) (r : run) :
  bsize content < 2 ^ 63 →
  traverseXml rt to_bytes fuel content = Some r →
  8 * Z.of_nat (length (visited r)) ≤ bsize content + 8.
Proof.
  intros Hsize H. unfold traverseXml in H.
  assert (Hnonneg : 0 ≤ bsize content) by (unfold bsize; lia).
  destruct (getXmlChunkOffset content) as [xmlChunkOffset|f];
    [|injection H as <-; cbn; lia].
  destruct (xmlChunkOffset =? 0); [injection H as <-; cbn; lia|].
  destruct (readBytesAtIndex 2 content xmlChunkOffset) as [[tag offset]|f] eqn:Hread;
    [|injection H as <-; cbn; lia].
  apply readBytesAtIndex_advance in Hread as (H0 & -> & Hend); [|lia].
  apply (traverseLoop_count rt to_bytes content Hsize) in H; [|lia].
  cbn [length] in H. lia.
Qed.

Lemma traverseXml_visited_bound_witness :
  bsize manifest_document < 2 ^ 63
  ∧ (∃ r, traverseXml android utf16_to_utf8 10 manifest_document = Some r
          ∧ 8 * Z.of_nat (length (visited r)) ≤ bsize manifest_document + 8).
Proof.
  assert (Hsize : bsize manifest_document < 2 ^ 63) by (vm_compute; reflexivity).
  split; [exact Hsize|].
  destruct (traverseXml android utf16_to_utf8 10 manifest_document) as [r|] eqn:Hrun;
    [|vm_compute in Hrun; discriminate Hrun].
  exists r. split; [reflexivity|].
  exact (traverseXml_visited_bound android utf16_to_utf8 10 manifest_document r Hsize Hrun).
Defined.

(** Where the vector is indexed with 64 bits: a start-namespace or
    resource-map chunk that declares fewer than eight bytes makes
    [chunkSize - 8] wrap around in 32 bits, the 64-bit cursor jumps almost
    4 GiB ahead and, in a buffer smaller than that, the traversal ends in
    the turn of that chunk, in the access outside the buffer, with nothing
    more handed to the visitor.  (With a 32-bit index the access is narrowed
    and this does not hold.) *)
Theorem traverseLoop_short_skip (rt : ResourceTypes) (to_bytes : list Z → res string)
    (content : bytes) (fuel : nat) (tag offset : Z) (seen : list XmlTagElement)
    (turns : nat) (headerSize declared o1 o2 : Z) :
  bsize content < 2 ^ 32 →
  tag = RES_XML_START_NAMESPACE_TYPE ∨ tag = RES_XML_RESOURCE_MAP_TYPE →
  readBytesAtIndex 2 content offset = Ok (headerSize, o1) →
  readBytesAtIndex 4 content o1 = Ok (declared, o2) →
  declared < 8 →
  ∃ f, traverseLoop rt to_bytes (S fuel) content tag offset seen turns
       = Some (mkRun seen turns (Faulted f)).
Proof.
  intros Hsize Htag Hheader Hdeclared Hshort.
  cbn [traverseLoop]. unfold handleChunk.
  rewrite Hheader. cbn. rewrite Hdeclared. cbn.
  destruct (readStrings to_bytes content) as [pool|f]; cbn; [|eauto].
  pose proof (readBytesAtIndex_Ok _ _ _ _ _ Hdeclared) as (_ & _ & _ & Hrange & _).
  apply readBytesAtIndex_advance in Hheader as (H0 & -> & _); [|lia].
  apply readBytesAtIndex_advance in Hdeclared as (_ & -> & Hin); [|lia].
  assert (Hjump : u64 (offset + 2 + 4 + u32 (declared - 8))
                  = offset + 6 + (declared - 8 + 2 ^ 32)).
  { unfold u32.
    replace ((declared - 8) mod 2 ^ 32) with (declared - 8 + 2 ^ 32)
      by (apply Z.mod_unique with (-1); lia).
    rewrite u64_small; lia. }
  destruct Htag as [-> | ->]; cbn;
    rewrite Hjump, readBytesAtIndex_beyond by lia; rewrite app_nil_r; eauto.
Qed.

Lemma traverseLoop_short_skip_witness :
  bsize short_skip_document < 2 ^ 32
  ∧ readBytesAtIndex 2 short_skip_document 62 = Ok (16, 64)
  ∧ readBytesAtIndex 4 short_skip_document 64 = Ok (4, 68)
  ∧ 4 < 8
  ∧ ∃ f, traverseLoop android utf16_to_utf8 5 short_skip_document
           RES_XML_START_NAMESPACE_TYPE 62 [] 1 = Some (mkRun [] 1 (Faulted f)).
Proof.
  assert (Hsize : bsize short_skip_document < 2 ^ 32) by (vm_compute; reflexivity).
  assert (Hheader : readBytesAtIndex 2 short_skip_document 62 = Ok (16, 64))
    by (vm_compute; reflexivity).
  assert (Hdeclared : readBytesAtIndex 4 short_skip_document 64 = Ok (4, 68))
    by (vm_compute; reflexivity).
  split; [exact Hsize|]. split; [exact Hheader|]. split; [exact Hdeclared|].
  split; [lia|].
  exact (traverseLoop_short_skip android utf16_to_utf8 short_skip_document 4
           RES_XML_START_NAMESPACE_TYPE 62 [] 1 16 4 64 68 Hsize (or_introl eq_refl)
           Hheader Hdeclared ltac:(lia)).
Defined.

(** ** Decoding a pool that is laid out as the reader expects *)

Lemma byte_val_byte_of_mod (x : Z) : byte_val (byte_of x) = x mod 256.
Proof.
  pose proof (Z.mod_pos_bound x 256 ltac:(lia)) as Hmod.
  unfold byte_val, byte_of.
  destruct (Byte.of_N (Z.to_N (x mod 256))) as [b|] eqn:Hb.
  - apply Byte.to_of_N in Hb. cbn. rewrite Hb. lia.
  - apply Byte.of_N_None_iff in Hb. lia.
Qed.

Lemma byte_val_byte_of (x : Z) : 0 ≤ x < 256 → byte_val (byte_of x) = x.
Proof. intros Hx. rewrite byte_val_byte_of_mod. by apply Z.mod_small. Qed.

Lemma le_bytes_length (width : nat) : ∀ x : Z, length (le_bytes width x) = width.
Proof. induction width as [|width IH]; intros x; [reflexivity|]. cbn. by rewrite IH. Qed.

(** Reading back what [le_bytes] writes. *)
Lemma le_value_le_bytes (width : nat) :
  ∀ x : Z, 0 ≤ x < 256 ^ Z.of_nat width → le_value (le_bytes width x) = x.
Proof.
  induction width as [|width IH]; intros x Hx.
  - cbn in *. lia.
  - rewrite Nat2Z.inj_succ, Z.pow_succ_r in Hx by lia.
    cbn [le_bytes le_value].
    rewrite IH by (split; [apply Z.div_pos; lia | apply Z.div_lt_upper_bound; lia]).
    rewrite byte_val_byte_of_mod. pose proof (Z.div_mod x 256 ltac:(lia)). lia.
Qed.

Lemma slice_in_place (pre bs post : bytes) :
  slice (pre ++ bs ++ post) (bsize pre) (bsize bs) = Ok bs.
Proof.
  unfold slice, bsize. rewrite !length_app.
  pose proof (Nat2Z.is_nonneg (length pre)) as Hpre.
  pose proof (Nat2Z.is_nonneg (length bs)) as Hbs.
  pose proof (Nat2Z.is_nonneg (length post)) as Hpost.
  rewrite !Nat2Z.inj_add.
  destruct (0 <=? Z.of_nat (length pre)) eqn:E1; [|lia].
  destruct (0 <=? Z.of_nat (length bs)) eqn:E2; [|lia].
  destruct (Z.of_nat (length pre) + Z.of_nat (length bs)
            <=? Z.of_nat (length pre)
                + (Z.of_nat (length bs) + Z.of_nat (length post))) eqn:E3; [|lia].
  cbn [andb]. rewrite !Nat2Z.id, drop_app_length, take_app_length. reflexivity.
Qed.

Lemma read_in_place (pre post : bytes) (width : nat) (value : Z) :
  0 ≤ value < 256 ^ Z.of_nat width →
  readBytesAtIndex (Z.of_nat width) (pre ++ le_bytes width value ++ post) (bsize pre)
  = Ok (value, u64 (bsize pre + Z.of_nat width)).
Proof.
  intros Hvalue. unfold readBytesAtIndex.
  pose proof (slice_in_place pre (le_bytes width value) post) as Hslice.
  unfold bsize at 2 in Hslice. rewrite le_bytes_length in Hslice.
  rewrite Hslice. cbn. by rewrite le_value_le_bytes.
Qed.

Lemma readStringOffsets_exact (content : bytes) (remaining : nat) :
  ∀ (i : Z) (stringOffsets : list Z),
    0 ≤ i → i + Z.of_nat remaining ≤ 2 ^ 32 →
    length stringOffsets = remaining →
    (∀ (k : nat) (offset : Z),
       stringOffsets !! k = Some offset →
       ∃ next, readBytesAtIndex 4 content (sizeof_BinaryXmlHeader + 4 * (i + Z.of_nat k))
               = Ok (offset, next)) →
    readStringOffsets content i remaining = Ok stringOffsets.
Proof.
  induction remaining as [|remaining IH]; intros i stringOffsets Hi Hbound Hlen Hreads.
  - apply nil_length_inv in Hlen as ->. reflexivity.
  - destruct stringOffsets as [|offset rest]; [discriminate|].
    cbn [readStringOffsets]. rewrite offset_entry_index by lia.
    destruct (Hreads 0%nat offset eq_refl) as [next Hread].
    rewrite Z.add_0_r in Hread. rewrite Hread. cbn.
    rewrite (IH (i + 1) rest); [reflexivity | lia | lia | by injection Hlen |].
    intros k offset' Hk. destruct (Hreads (S k) offset' Hk) as [next' Hread'].
    exists next'. rewrite <- Hread'. f_equal. lia.
Qed.

Lemma entry_offsets_length (entries : list bytes) :
  ∀ from : Z, length (entry_offsets from entries) = length entries.
Proof. induction entries as [|e entries IH]; intros from; [reflexivity|]. cbn. by rewrite IH. Qed.

Lemma entry_offsets_lookup (entries : list bytes) :
  ∀ (from : Z) (k : nat) (offset : Z),
    entry_offsets from entries !! k = Some offset →
    offset = from + bsize (concat (take k entries)).
Proof.
  induction entries as [|e entries IH]; intros from k offset Hk; [discriminate|].
  destruct k as [|k].
  - injection Hk as <-. cbn. unfold bsize. cbn. lia.
  - cbn in Hk. apply IH in Hk as ->. cbn [take concat]. unfold bsize.
    rewrite length_app. lia.
Qed.

Lemma table_length (offsets : list Z) : bsize (offsets ≫= le32) = 4 * Z.of_nat (length offsets).
Proof.
  unfold bsize. induction offsets as [|z offsets IH]; [reflexivity|].
  rewrite bind_cons, length_app. unfold le32 at 1. rewrite le_bytes_length.
  cbn [length]. lia.
Qed.

(** The offset entry [k] of a table, read in place. *)
Lemma offset_in_place (header : bytes) (offsets : list Z) (post : bytes) (k : nat) (z : Z) :
  offsets !! k = Some z → 0 ≤ z < 2 ^ 32 →
  readBytesAtIndex 4 (header ++ (offsets ≫= le32) ++ post) (bsize header + 4 * Z.of_nat k)
  = Ok (z, u64 (bsize header + 4 * Z.of_nat k + 4)).
Proof.
  intros Hk Hz.
  rewrite <- (take_drop_middle offsets k z Hk), bind_app, bind_cons.
  pose proof (read_in_place (header ++ (take k offsets ≫= le32))
                ((drop (S k) offsets ≫= le32) ++ post) 4 z Hz) as Hread.
  assert (Hposition : bsize (header ++ (take k offsets ≫= le32))
                      = bsize header + 4 * Z.of_nat k).
  { pose proof (table_length (take k offsets)) as Htable.
    apply lookup_lt_Some in Hk. rewrite length_take in Htable.
    unfold bsize in *. rewrite length_app. lia. }
  rewrite Hposition in Hread. change (Z.of_nat 4) with 4 in Hread.
  rewrite <- Hread. f_equal.
  rewrite <- !app_assoc. reflexivity.
Qed.

(** The entry of a payload, decoded in place. *)
Lemma readString_in_place (to_bytes : list Z → res string) (pre payload post : bytes)
    (startStringsOffset offset : Z) :
  bsize pre = startStringsOffset + offset →
  startStringsOffset + offset < 2 ^ 64 →
  bsize payload < 256 →
  readString to_bytes (pre ++ utf8_entry (bsize payload) payload ++ post) true
    startStringsOffset offset
  = Ok (String.string_of_list_byte payload).
Proof.
  intros Hposition Hsmall Hshort. unfold readString.
  assert (Hnonneg : 0 ≤ bsize pre ∧ 0 ≤ bsize payload) by (unfold bsize; lia).
  rewrite u64_small by lia. rewrite <- Hposition.
  assert (Hlength : readBytesAtIndex 1 (pre ++ utf8_entry (bsize payload) payload ++ post)
                      (bsize pre)
                    = Ok (bsize payload, u64 (bsize pre + 1))).
  { exact (read_in_place pre (byte_of (bsize payload) :: (payload ++ [x00]) ++ post) 1
             (bsize payload) ltac:(lia)). }
  rewrite Hlength. cbn -[utf8_entry slice bsize].
  pose proof (slice_in_place (pre ++ [byte_of (bsize payload); byte_of (bsize payload)])
                payload ([x00] ++ post)) as Hslice.
  assert (Hat : bsize (pre ++ [byte_of (bsize payload); byte_of (bsize payload)])
                = bsize pre + 2) by (unfold bsize; rewrite length_app; cbn; lia).
  rewrite Hat in Hslice.
  replace ((pre ++ [byte_of (bsize payload); byte_of (bsize payload)])
           ++ payload ++ [x00] ++ post)
    with (pre ++ utf8_entry (bsize payload) payload ++ post) in Hslice
    by (unfold utf8_entry; cbn [app]; rewrite <- !app_assoc; cbn [app]; reflexivity).
  rewrite Hslice. reflexivity.
Qed.

Lemma readStrings_valid (to_bytes : list Z → res string) (content : bytes)
    (count fl : Z) (stringOffsets : list Z) (pool : strings) :
  xmlMagicNumber content = Ok XML_IDENTIFIER →
  stringTableIdentifier content = Ok XML_STRING_TABLE →
  numStrings content = Ok count →
  readStringOffsets content 0 (Z.to_nat count) = Ok stringOffsets →
  flags content = Ok fl →
  readEachString to_bytes content (Z.land fl RES_FLAG_UTF8 =? RES_FLAG_UTF8)
    (u64 (sizeof_BinaryXmlHeader
          + u64 (Z.of_nat (length stringOffsets) * sizeof_uint32_t))) stringOffsets
  = Ok pool →
  readStrings to_bytes content = Ok pool.
Proof.
  intros Hmagic Hident Hcount Hoffsets Hflags Heach. unfold readStrings.
  rewrite Hmagic. cbn. rewrite Hident. cbn. rewrite Hcount. cbn.
  rewrite Hoffsets. cbn. rewrite Hflags. cbn. exact Heach.
Qed.

Lemma concat_take_size (entries : list bytes) (k : nat) :
  bsize (concat (take k entries)) ≤ bsize (concat entries).
Proof.
  rewrite <- (take_drop k entries) at 2. rewrite concat_app.
  unfold bsize. rewrite length_app. lia.
Qed.

(** A pool laid out as [utf8_pool_layout] is decoded to its payloads, in
    order, whatever follows the pool and whatever the fields of the header
    that [readStrings] does not read hold. *)
Theorem readStrings_utf8_pool_layout (to_bytes : list Z → res string)
    (reserved headerSz chunkSz styles fl stringsStart stylesStart : Z)
    (payloads : list bytes) (rest : bytes) :
  0 ≤ fl < 2 ^ 32 →
  Z.land fl RES_FLAG_UTF8 = RES_FLAG_UTF8 →
  Forall (λ payload, bsize payload < 256) payloads →
  Z.of_nat (length payloads) < 2 ^ 32 →
  bsize (concat ((λ payload, utf8_entry (bsize payload) payload) <$> payloads)) < 2 ^ 32 →
  readStrings to_bytes
    (utf8_pool_layout reserved headerSz chunkSz styles fl stringsStart stylesStart
       payloads rest)
  = Ok (String.string_of_list_byte <$> payloads).
Proof.
  intros Hfl Hutf8 Hshort Hcount Hdata.
  unfold utf8_pool_layout. cbv zeta.
  set (entries := (λ payload, utf8_entry (bsize payload) payload) <$> payloads) in *.
  set (table := entry_offsets 0 entries ≫= le32).
  set (count := Z.of_nat (length payloads)) in *.
  set (A := le32 XML_IDENTIFIER). set (B := le32 reserved).
  set (C := le16 XML_STRING_TABLE). set (D := le16 headerSz). set (E := le32 chunkSz).
  set (G := le32 styles). set (I := le32 stringsStart). set (J := le32 stylesStart).
  set (content := A ++ B ++ C ++ D ++ E ++ le32 count ++ G ++ le32 fl ++ I ++ J
                  ++ table ++ concat entries ++ rest).
  set (header := A ++ B ++ C ++ D ++ E ++ le32 count ++ G ++ le32 fl ++ I ++ J).
  assert (Hcontent : content = header ++ table ++ concat entries ++ rest) by reflexivity.
  assert (Hheader : bsize header = 36) by reflexivity.
  assert (Hentries : length entries = length payloads) by apply length_fmap.
  assert (Hmagic : xmlMagicNumber content = Ok XML_IDENTIFIER).
  { unfold xmlMagicNumber, header_field.
    pose proof (read_in_place []
                  (B ++ C ++ D ++ E ++ le32 count ++ G ++ le32 fl ++ I ++ J
                   ++ table ++ concat entries ++ rest) 4 XML_IDENTIFIER
                  ltac:(vm_compute; split; congruence)) as Hread.
    change (readBytesAtIndex 4 content 0 = Ok (XML_IDENTIFIER, u64 4)) in Hread.
    rewrite Hread. reflexivity. }
  assert (Hident : stringTableIdentifier content = Ok XML_STRING_TABLE).
  { unfold stringTableIdentifier, header_field.
    pose proof (read_in_place (A ++ B)
                  (D ++ E ++ le32 count ++ G ++ le32 fl ++ I ++ J
                   ++ table ++ concat entries ++ rest) 2 XML_STRING_TABLE
                  ltac:(vm_compute; split; congruence)) as Hread.
    change (readBytesAtIndex 2 content 8 = Ok (XML_STRING_TABLE, u64 10)) in Hread.
    rewrite Hread. reflexivity. }
  assert (Hnum : numStrings content = Ok count).
  { unfold numStrings, header_field.
    pose proof (read_in_place (A ++ B ++ C ++ D ++ E)
                  (G ++ le32 fl ++ I ++ J ++ table ++ concat entries ++ rest) 4 count
                  ltac:(subst count; change (256 ^ Z.of_nat 4) with (2 ^ 32); lia))
      as Hread.
    change (readBytesAtIndex 4 content 16 = Ok (count, u64 20)) in Hread.
    rewrite Hread. reflexivity. }
  assert (Hflags : flags content = Ok fl).
  { unfold flags, header_field.
    pose proof (read_in_place (A ++ B ++ C ++ D ++ E ++ le32 count ++ G)
                  (I ++ J ++ table ++ concat entries ++ rest) 4 fl
                  ltac:(change (256 ^ Z.of_nat 4) with (2 ^ 32); lia)) as Hread.
    change (readBytesAtIndex 4 content 24 = Ok (fl, u64 28)) in Hread.
    rewrite Hread. reflexivity. }
  assert (Hoffsets : readStringOffsets content 0 (Z.to_nat count)
                     = Ok (entry_offsets 0 entries)).
  { apply readStringOffsets_exact; [lia | subst count; lia | |].
    - rewrite entry_offsets_length, Hentries. subst count. by rewrite Nat2Z.id.
    - intros k offset Hk. eexists.
      pose proof (entry_offsets_lookup _ _ _ _ Hk) as Hoffset.
      pose proof (concat_take_size entries k) as Hle.
      assert (Hrange : 0 ≤ offset < 2 ^ 32) by (unfold bsize in *; lia).
      pose proof (offset_in_place header (entry_offsets 0 entries)
                    (concat entries ++ rest) k offset Hk Hrange) as Hread.
      rewrite Hheader in Hread. rewrite Hcontent.
      replace (sizeof_BinaryXmlHeader + 4 * (0 + Z.of_nat k)) with (36 + 4 * Z.of_nat k)
        by (unfold sizeof_BinaryXmlHeader; lia).
      exact Hread. }
  apply (readStrings_valid to_bytes content count fl (entry_offsets 0 entries));
    try assumption.
  rewrite Hutf8, Z.eqb_refl.
  assert (Hstart : u64 (sizeof_BinaryXmlHeader
                        + u64 (Z.of_nat (length (entry_offsets 0 entries)) * sizeof_uint32_t))
                   = 36 + 4 * count).
  { rewrite entry_offsets_length, Hentries. fold count.
    unfold sizeof_BinaryXmlHeader, sizeof_uint32_t.
    rewrite (u64_small (_ * 4)) by (subst count; lia).
    rewrite u64_small by (subst count; lia). lia. }
  rewrite Hstart. apply readEachString_Ok.
  apply Forall2_same_length_lookup_2.
  { by rewrite entry_offsets_length, Hentries, length_fmap. }
  intros i offset s Hi Hs.
  rewrite list_lookup_fmap in Hs.
  destruct (payloads !! i) as [payload|] eqn:Hpayload; [|discriminate].
  injection Hs as <-.
  assert (Hentry : entries !! i = Some (utf8_entry (bsize payload) payload)).
  { subst entries. by rewrite list_lookup_fmap, Hpayload. }
  apply entry_offsets_lookup in Hi as Hoffset. rewrite Z.add_0_l in Hoffset.
  pose proof (concat_take_size entries i) as Hle.
  rewrite Forall_forall in Hshort.
  pose proof (Hshort payload (list_elem_of_lookup_2 _ _ _ Hpayload)) as Hpayload_short.
  rewrite Hcontent.
  rewrite <- (take_drop_middle entries i _ Hentry), concat_app, concat_cons.
  replace (header ++ table
           ++ (concat (take i entries)
               ++ utf8_entry (bsize payload) payload ++ concat (drop (S i) entries))
           ++ rest)
    with ((header ++ table ++ concat (take i entries))
          ++ utf8_entry (bsize payload) payload ++ (concat (drop (S i) entries) ++ rest))
    by (rewrite <- !app_assoc; reflexivity).
  apply readString_in_place; [| unfold bsize in *; lia | exact Hpayload_short].
  pose proof (table_length (entry_offsets 0 entries)) as Htable.
  rewrite entry_offsets_length, Hentries in Htable. fold table count in Htable.
  unfold bsize in *. rewrite !length_app. lia.
Qed.

Lemma readStrings_utf8_pool_layout_witness :
  0 ≤ RES_FLAG_UTF8 < 2 ^ 32
  ∧ Z.land RES_FLAG_UTF8 RES_FLAG_UTF8 = RES_FLAG_UTF8
  ∧ Forall (λ payload, bsize payload < 256)
      (String.list_byte_of_string <$> ["manifest"; "application"])
  ∧ readStrings utf16_to_utf8
      (utf8_pool_layout 0 28 0 0 RES_FLAG_UTF8 0 0
         (String.list_byte_of_string <$> ["manifest"; "application"]) [])
    = Ok ["manifest"; "application"].
Proof.
  assert (Hfl : 0 ≤ RES_FLAG_UTF8 < 2 ^ 32) by (vm_compute; split; congruence).
  assert (Hutf8 : Z.land RES_FLAG_UTF8 RES_FLAG_UTF8 = RES_FLAG_UTF8) by reflexivity.
  assert (Hshort : Forall (λ payload, bsize payload < 256)
                     (String.list_byte_of_string <$> ["manifest"; "application"]))
    by (repeat constructor).
  split; [exact Hfl|]. split; [exact Hutf8|]. split; [exact Hshort|].
  exact (readStrings_utf8_pool_layout utf16_to_utf8 0 28 0 0 RES_FLAG_UTF8 0 0
           (String.list_byte_of_string <$> ["manifest"; "application"]) []
           Hfl Hutf8 Hshort ltac:(vm_compute; reflexivity) ltac:(vm_compute; reflexivity)).
Defined.

(** The documents built by [document] from entries whose length bytes agree
    have that layout. *)
Lemma document_layout (fl : Z) (payloads : list bytes) (chunks : bytes) :
  ∃ reserved chunkSz stringsStart rest,
    document fl ((λ payload, utf8_entry (bsize payload) payload) <$> payloads) chunks
    = utf8_pool_layout reserved 28 chunkSz 0 fl stringsStart 0 payloads rest.
Proof.
  unfold document, utf8_pool_layout. cbv zeta. rewrite length_fmap.
  eexists _, _, _, _. reflexivity.
Qed.

(** * Properties of the facade *)

Section ApkProperties.

Variable getFiles : string → list string.
Variable getFileContents : string → string → bytes.
Variable hasElement : bytes → string → bool.
Variable getElementAttributes : bytes → list string → gmap string string.
Variable toStringXml : bytes → string.

Abbreviation manifestOf apkPath :=
  (getAndroidManifestAsBinaryXml getFiles getFileContents apkPath).
Abbreviation isValidOf apkPath := (isValid getFiles getFileContents hasElement apkPath).
Abbreviation isDebuggableOf apkPath :=
  (isDebuggable getFiles getFileContents hasElement getElementAttributes apkPath).

(** The manifest is obtained exactly when the archive lists it and its
    contents are not empty; otherwise the exception is the missing one. *)
Lemma getAndroidManifestAsBinaryXml_cases (apkPath : string) :
  (ANDROID_MANIFEST ∈ getFiles apkPath
   ∧ getFileContents apkPath ANDROID_MANIFEST ≠ []
   ∧ manifestOf apkPath = Returns (getFileContents apkPath ANDROID_MANIFEST))
  ∨ ((ANDROID_MANIFEST ∉ getFiles apkPath ∨ getFileContents apkPath ANDROID_MANIFEST = [])
     ∧ manifestOf apkPath = Throws (MissingAndroidManifestException apkPath)).
Proof.
  unfold getAndroidManifestAsBinaryXml. cbv zeta.
  destruct (bool_decide (ANDROID_MANIFEST ∈ getFiles apkPath)) eqn:Hlisted; cbn [negb].
  - apply bool_decide_eq_true in Hlisted.
    destruct (bool_decide (getFileContents apkPath ANDROID_MANIFEST = [])) eqn:Hempty.
    + apply bool_decide_eq_true in Hempty. right. split; [by right | reflexivity].
    + apply bool_decide_eq_false in Hempty. left. done.
  - apply bool_decide_eq_false in Hlisted. right. split; [by left | reflexivity].
Qed.

(** Provided the calls to [ApkParser] and to [hasElement] return,
    [isValid] returns: the exception that [getAndroidManifestAsBinaryXml]
    throws for a missing manifest is caught.  Its value is true exactly when
    the archive lists the manifest, the manifest is not empty and it has an
    element [application]. *)
Theorem isValid_cases (apkPath : string) :
  ∃ valid,
    isValidOf apkPath = Returns valid
    ∧ (valid = true ↔
         ANDROID_MANIFEST ∈ getFiles apkPath
         ∧ getFileContents apkPath ANDROID_MANIFEST ≠ []
         ∧ hasElement (getFileContents apkPath ANDROID_MANIFEST)
             ANDROID_MANIFEST_TAG_APPLICATION = true).
Proof.
  unfold isValid.
  destruct (getAndroidManifestAsBinaryXml_cases apkPath)
    as [(Hlisted & Hfull & ->) | (Hmissing & ->)].
  - eexists. split; [reflexivity|]. split; [done | by intros (_ & _ & ->)].
  - exists false. split; [reflexivity|]. split; [discriminate|].
    intros (Hlisted & Hfull & _). by destruct Hmissing.
Qed.

(** [isDebuggable] returns exactly when [isValid] returns true; what it
    returns is whether the attribute [debuggable] of [application] is the
    string "true".  Otherwise it throws. *)
Theorem isDebuggable_guarded (apkPath : string) :
  (isValidOf apkPath = Returns true
   ∧ isDebuggableOf apkPath
     = Returns (bool_decide
                  (getElementAttributes (getFileContents apkPath ANDROID_MANIFEST)
                     [ANDROID_MANIFEST_TAG_APPLICATION]
                     !! ANDROID_MANIFEST_ATTRIBUTE_DEBUGGABLE = Some "true")))
  ∨ (isValidOf apkPath = Returns false ∧ ∃ e, isDebuggableOf apkPath = Throws e).
Proof.
  unfold isValid, isDebuggable.
  destruct (getAndroidManifestAsBinaryXml_cases apkPath)
    as [(Hlisted & Hfull & ->) | (Hmissing & ->)]; cbn.
  - destruct (hasElement (getFileContents apkPath ANDROID_MANIFEST)
                ANDROID_MANIFEST_TAG_APPLICATION); cbn; [left | right; eauto].
    split; [reflexivity|].
    destruct (getElementAttributes _ _ !! _) as [value|]; [|reflexivity].
    f_equal. destruct (decide (value = "true")) as [-> | Hne].
    + by rewrite !bool_decide_eq_true_2.
    + rewrite !bool_decide_eq_false_2; [reflexivity | congruence | exact Hne].
  - right. eauto.
Qed.

Lemma map_insert_new_fresh (key value : string) (properties : gmap string string) :
  properties !! key = None → map_insert_new key value properties = <[key := value]> properties.
Proof. intros Hfresh. unfold map_insert_new. by rewrite Hfresh. Qed.

(** Provided the calls to [ApkParser] and the queries of [BinaryXml]
    return, [getProperties] returns: neither of the exceptions that apk.cpp
    throws itself escapes it, the calls that throw them being made after
    [isValid] has returned true.  For a valid archive the map has the six
    keys valid, debuggable, manifest, packageName, versionCode and
    versionName; otherwise it has the key valid alone, with the value
    "false". *)
Theorem getProperties_cases (apkPath : string) :
  ∃ properties,
    getProperties getFiles getFileContents hasElement getElementAttributes toStringXml
      apkPath = Returns properties
    ∧ ((isValidOf apkPath = Returns true
        ∧ dom properties
          = {["valid"; "debuggable"; "manifest"; "packageName"; "versionCode";
              "versionName"]}
        ∧ properties !! "valid" = Some "true"
        ∧ (∃ debuggable : bool,
             isDebuggableOf apkPath = Returns debuggable
             ∧ properties !! "debuggable" = Some (if debuggable then "true" else "false"))
        ∧ properties !! "manifest"
          = Some (toStringXml (getFileContents apkPath ANDROID_MANIFEST))
        ∧ properties !! "packageName"
          = Some (getPackageName getFileContents getElementAttributes apkPath))
       ∨ (isValidOf apkPath = Returns false ∧ properties = {["valid" := "false"]})).
Proof.
  unfold getProperties, isValid, isDebuggable, getAndroidManifest.
  destruct (getAndroidManifestAsBinaryXml_cases apkPath)
    as [(Hlisted & Hfull & ->) | (Hmissing & ->)]; cbn;
    [|eexists; split; [reflexivity | by right]].
  destruct (hasElement (getFileContents apkPath ANDROID_MANIFEST)
              ANDROID_MANIFEST_TAG_APPLICATION); cbn;
    [|eexists; split; [reflexivity | by right]].
  set (debuggable :=
         match getElementAttributes (getFileContents apkPath ANDROID_MANIFEST)
                 [ANDROID_MANIFEST_TAG_APPLICATION]
               !! ANDROID_MANIFEST_ATTRIBUTE_DEBUGGABLE with
         | Some value => bool_decide (value = "true")
         | None => false
         end).
  assert (Hdebuggable :
            match getElementAttributes (getFileContents apkPath ANDROID_MANIFEST)
                    [ANDROID_MANIFEST_TAG_APPLICATION]
                  !! ANDROID_MANIFEST_ATTRIBUTE_DEBUGGABLE with
            | Some value => Returns (bool_decide (value = "true"))
            | None => Returns false
            end = Returns debuggable).
  { subst debuggable. by destruct (getElementAttributes _ _ !! _). }
  rewrite Hdebuggable. cbn.
  eexists. split; [reflexivity|]. left. split; [reflexivity|].
  rewrite !map_insert_new_fresh by (by simplify_map_eq).
  split; [rewrite !dom_insert_L, dom_singleton_L; set_solver|].
  split; [by simplify_map_eq|].
  split; [eexists; split; [reflexivity | by simplify_map_eq]|].
  split; by simplify_map_eq.
Qed.

End ApkProperties.

(** * The traversal, turn by turn *)

(** ** Which faults can occur *)






Lemma at_index_fault (pool : strings) (index : Z) (f : fault) :
  at_index pool index = Fail f → f = OutOfBounds.
Proof.
  unfold at_index. destruct (_ && _); [|by intros [= <-]].
  destruct (pool !! Z.to_nat index); [discriminate | by intros [= <-]].
Qed.

Lemma stringOrEmpty_fault (pool : strings) (raw : Z) (f : fault) :
  stringOrEmpty pool raw = Fail f → f = OutOfBounds.
Proof.
  unfold stringOrEmpty. destruct (0 <=? i32 raw); [apply at_index_fault | discriminate].
Qed.















(** ** How a traversal ends *)


(** Where the vector is indexed with 32 bits, the 64-bit cursor is narrowed
    at each access: after a start-namespace chunk that declares a chunk size
    of 0 the narrowed cursor is the start of that very chunk. *)
Lemma zero_size_skip_narrowed (start : Z) :
  0 ≤ start → start + 8 < 2 ^ 32 → u32 (u64 (start + 8 + u32 (0 - 8))) = start.
Proof.
  intros Hstart Hend. unfold u32, u64.
  change ((0 - 8) mod 2 ^ 32) with (2 ^ 32 - 8).
  rewrite (Z.mod_small (start + 8 + (2 ^ 32 - 8))) by lia.
  replace (start + 8 + (2 ^ 32 - 8)) with (start + 1 * 2 ^ 32) by lia.
  rewrite Z.mod_add by lia. apply Z.mod_small. lia.
Qed.



(** ** The turn of an element *)

Lemma readBytesAtIndex_in_range (width : Z) (data : bytes) (index : Z) :
  bsize data < 2 ^ 64 → 0 ≤ index → 0 ≤ width → index + width ≤ bsize data →
  ∃ value, readBytesAtIndex width data index = Ok (value, index + width).
Proof.
  intros Hsize Hindex Hwidth Hend. unfold readBytesAtIndex.
  rewrite slice_in_range by lia. cbn. rewrite u64_small by lia. eauto.
Qed.

Lemma stringOrEmpty_indexed (pool : strings) (raw : Z) (s : string) :
  0 ≤ raw < 2 ^ 32 → indexed pool raw s → stringOrEmpty pool raw = Ok s.
Proof.
  intros Hraw [[Hnegative ->] | [Hpos Hlookup]];
    [by apply stringOrEmpty_negative | by apply stringOrEmpty_inside].
Qed.

Section Turn.

Variable rt : ResourceTypes.
Variable to_bytes : list Z → res string.
Variable content : bytes.
Hypothesis content_size : bsize content < 2 ^ 63.

(** Once the two index fields of an element can be read, the turn of a
    start or end element is the two lookups, then for a start element the
    attribute block, then the element. *)
Lemma handleChunk_element (pool : strings) (offset nsRaw nameRaw n1 n2 : Z) :
  0 ≤ offset →
  readStrings to_bytes content = Ok pool →
  readBytesAtIndex 4 content (offset + 14) = Ok (nsRaw, n1) →
  readBytesAtIndex 4 content (offset + 18) = Ok (nameRaw, n2) →
  handleChunk rt to_bytes content RES_XML_END_ELEMENT_TYPE offset
  = (namespaceString ← stringOrEmpty pool nsRaw;
     name ← stringOrEmpty pool nameRaw;
     Ok ([EndXmlTagElement name], offset + 22))
  ∧ handleChunk rt to_bytes content RES_XML_START_ELEMENT_TYPE offset
    = (namespaceString ← stringOrEmpty pool nsRaw;
       name ← stringOrEmpty pool nameRaw;
       '(attributes, offset') ← handleAttributes rt content pool (offset + 22);
       Ok ([StartXmlTagElement name attributes], offset')).
Proof.
  intros Hoffset Hpool Hns Hname.
  pose proof (readBytesAtIndex_advance _ content _ _ _ ltac:(lia) Hns) as (_ & Hn1 & _).
  pose proof (readBytesAtIndex_advance _ content _ _ _ ltac:(lia) Hname) as (_ & Hn2 & Hend).
  destruct (readBytesAtIndex_in_range 2 content offset) as [v0 E0]; [lia..|].
  destruct (readBytesAtIndex_in_range 4 content (offset + 2)) as [v1 E1]; [lia..|].
  destruct (readBytesAtIndex_in_range 4 content (offset + 6)) as [v2 E2]; [lia..|].
  destruct (readBytesAtIndex_in_range 4 content (offset + 10)) as [v3 E3]; [lia..|].
  replace (offset + 2 + 4) with (offset + 6) in E1 by lia.
  replace (offset + 6 + 4) with (offset + 10) in E2 by lia.
  replace (offset + 10 + 4) with (offset + 14) in E3 by lia.
  replace n1 with (offset + 18) in Hns by lia.
  replace n2 with (offset + 22) in Hname by lia.
  unfold handleChunk, handleEndElementTag, handleStartElementTag.
  rewrite E0. cbn. rewrite E1. cbn. rewrite Hpool. cbn.
  rewrite E2. cbn. rewrite E3. cbn. rewrite Hns. cbn.
  destruct (stringOrEmpty pool nsRaw) as [namespaceString|f]; cbn; [|done].
  rewrite Hname. cbn.
  destruct (stringOrEmpty pool nameRaw) as [name|f]; cbn; [|done].
  split; [reflexivity|].
  by destruct (handleAttributes rt content pool (offset + 22)) as [[attributes offset']|f].
Qed.

(** C4 (amended).  In the turn of a start or end element, a namespace or
    name index that is negative stands for the empty string and one within
    the pool for the pool string at that index: the end element, or the
    start element with the map of its attribute block, is handed to the
    visitor under that name.  An index at or beyond the length of the pool
    is not checked: the turn ends in the unchecked access, the traversal
    ends there, and the visitor is handed nothing for the chunk, in
    particular no invalid element. *)
Theorem element_index_lookup (pool : strings) (offset nsRaw nameRaw n1 n2 : Z) :
  0 ≤ offset →
  readStrings to_bytes content = Ok pool →
  readBytesAtIndex 4 content (offset + 14) = Ok (nsRaw, n1) →
  readBytesAtIndex 4 content (offset + 18) = Ok (nameRaw, n2) →
  (∀ namespaceString name,
     indexed pool nsRaw namespaceString → indexed pool nameRaw name →
     handleChunk rt to_bytes content RES_XML_END_ELEMENT_TYPE offset
     = Ok ([EndXmlTagElement name], offset + 22)
     ∧ handleChunk rt to_bytes content RES_XML_START_ELEMENT_TYPE offset
       = ('(attributes, offset') ← handleAttributes rt content pool (offset + 22);
          Ok ([StartXmlTagElement name attributes], offset')))
  ∧ (stray pool nsRaw ∨ stray pool nameRaw →
     ∀ tag, tag = RES_XML_START_ELEMENT_TYPE ∨ tag = RES_XML_END_ELEMENT_TYPE →
       handleChunk rt to_bytes content tag offset = Fail OutOfBounds
       ∧ ∀ (fuel : nat) (seen : list XmlTagElement) (turns : nat),
           traverseLoop rt to_bytes (S fuel) content tag offset seen turns
           = Some (mkRun seen turns (Faulted OutOfBounds))).
Proof.
  intros Hoffset Hpool Hns Hname.
  destruct (handleChunk_element pool offset nsRaw nameRaw n1 n2 Hoffset Hpool Hns Hname)
    as [Hend Hstart].
  pose proof (readBytesAtIndex_Ok _ _ _ _ _ Hns) as (_ & _ & _ & HnsRaw & _).
  pose proof (readBytesAtIndex_Ok _ _ _ _ _ Hname) as (_ & _ & _ & HnameRaw & _).
  change (256 ^ 4) with (2 ^ 32) in HnsRaw, HnameRaw.
  split.
  - intros namespaceString name Hnamespace Hnamed.
    rewrite Hend, Hstart.
    rewrite (stringOrEmpty_indexed pool nsRaw namespaceString HnsRaw Hnamespace).
    rewrite (stringOrEmpty_indexed pool nameRaw name HnameRaw Hnamed).
    split; reflexivity.
  - intros Hstray tag Htag.
    assert (Hfail : handleChunk rt to_bytes content tag offset = Fail OutOfBounds).
    { assert (Hlookups : (namespaceString ← stringOrEmpty pool nsRaw;
                          stringOrEmpty pool nameRaw) = Fail OutOfBounds).
      { destruct Hstray as [Hstray | Hstray].
        - by rewrite (stringOrEmpty_outside pool nsRaw HnsRaw Hstray).
        - rewrite (stringOrEmpty_outside pool nameRaw HnameRaw Hstray).
          destruct (stringOrEmpty pool nsRaw) as [namespaceString|f] eqn:E; [done|].
          apply stringOrEmpty_fault in E as ->. done. }
      destruct Htag as [-> | ->]; [rewrite Hstart | rewrite Hend];
        destruct (stringOrEmpty pool nsRaw) as [namespaceString|f]; cbn in *;
        try (rewrite Hlookups; done); by injection Hlookups as ->. }
    split; [exact Hfail|].
    intros fuel seen turns. cbn [traverseLoop]. by rewrite Hfail.
Qed.

(** C10.  When the attribute block of a start element holds two records of
    the same name, the start element that the turn hands to the visitor
    carries, under that name, the value of the last such record, and its map
    has fewer entries than the block has records. *)
Theorem start_element_last_record_wins (pool : strings) (offset offset' count c1 c2 : Z)
    (dispatched : list XmlTagElement)
    (before between after : list (string * string)) (name earlier later : string) :
  readStrings to_bytes content = Ok pool →
  handleChunk rt to_bytes content RES_XML_START_ELEMENT_TYPE offset
    = Ok (dispatched, offset') →
  readBytesAtIndex 4 content (offset + 22) = Ok (XML_ATTRS_MARKER rt, c1) →
  readBytesAtIndex 4 content (offset + 26) = Ok (count, c2) →
  attributeEntries rt content pool (Z.to_nat count) (offset + 34)
    = Ok (before ++ (name, earlier) :: between ++ (name, later) :: after) →
  name ∉ after.*1 →
  ∃ element attributes,
    dispatched = [StartXmlTagElement element attributes]
    ∧ attributes !! name = Some later
    ∧ Z.of_nat (size attributes) < count.
Proof.
  intros Hpool Hchunk Hmarker Hcount Hentries Hlast.
  unfold handleChunk in Hchunk. unbind Hchunk.
  rewrite Hpool in Hstep1. injection Hstep1 as <-.
  change (RES_XML_START_ELEMENT_TYPE =? RES_XML_START_NAMESPACE_TYPE) with false in Hchunk.
  change (RES_XML_START_ELEMENT_TYPE =? RES_XML_RESOURCE_MAP_TYPE) with false in Hchunk.
  change (RES_XML_START_ELEMENT_TYPE =? RES_XML_START_ELEMENT_TYPE) with true in Hchunk.
  cbv iota in Hchunk. unbind Hchunk. injection Hchunk as <- <-.
  pose proof (readBytesAtIndex_advance _ content _ _ _ ltac:(lia) Hstep) as (H0 & -> & _).
  pose proof (readBytesAtIndex_advance _ content _ _ _ ltac:(lia) Hstep0) as (_ & -> & _).
  match goal with
  | Hh : handleStartElementTag _ _ _ _ = Ok _ |- _ =>
      apply handleStartElementTag_name in Hh
        as (raw & next & element & attributes & Hraw & _ & Hattributes & ->);
        [|exact content_size]
  end.
  pose proof (readBytesAtIndex_advance _ content _ _ _ ltac:(lia) Hraw) as (_ & -> & _).
  replace (offset + 2 + 4 + 12 + 4) with (offset + 22) in Hattributes by lia.
  pose proof (readBytesAtIndex_advance _ content _ _ _ ltac:(lia) Hmarker) as (_ & -> & _).
  pose proof (readBytesAtIndex_advance _ content _ _ _ ltac:(lia) Hcount) as (_ & Hc2 & _).
  replace (offset + 22 + 4) with (offset + 26) in Hmarker by lia.
  unfold handleAttributes in Hattributes.
  rewrite Hmarker in Hattributes. cbn in Hattributes.
  rewrite Z.eqb_refl in Hattributes. cbn in Hattributes.
  rewrite Hcount in Hattributes. cbn in Hattributes.
  unbind Hattributes.
  match goal with
  | Hh : readBytesAtIndex 4 content c2 = Ok (_, ?next) |- _ =>
      pose proof (readBytesAtIndex_advance _ content _ _ _ ltac:(lia) Hh) as (_ & Hc3 & _);
      replace next with (offset + 34) in Hattributes by lia
  end.
  destruct (attributesLoop_last_record_wins rt content pool (Z.to_nat count) _ _ _
              before between after name earlier later Hattributes Hentries Hlast)
    as [Hvalue Hfewer].
  exists element, attributes. split; [reflexivity|]. split; [exact Hvalue | lia].
Qed.

End Turn.

Lemma element_index_lookup_witness :
  bsize manifest_document < 2 ^ 63
  ∧ readStrings utf16_to_utf8 manifest_document = Ok manifest_strings
  ∧ readBytesAtIndex 4 manifest_document (318 + 14) = Ok (0xFFFFFFFF, 336)
  ∧ readBytesAtIndex 4 manifest_document (318 + 18) = Ok (1, 340)
  ∧ handleChunk android utf16_to_utf8 manifest_document RES_XML_END_ELEMENT_TYPE 318
    = Ok ([EndXmlTagElement "application"], 318 + 22)
  ∧ handleChunk android utf16_to_utf8 manifest_document RES_XML_START_ELEMENT_TYPE 318
    = ('(attributes, offset') ←
         handleAttributes android manifest_document manifest_strings (318 + 22);
       Ok ([StartXmlTagElement "application" attributes], offset'))
  ∧ bsize stray_index_document < 2 ^ 63
  ∧ readStrings utf16_to_utf8 stray_index_document
    = Ok ["p"; "android"; "http://schemas.android.com"]
  ∧ readBytesAtIndex 4 stray_index_document (118 + 14) = Ok (0xFFFFFFFF, 136)
  ∧ readBytesAtIndex 4 stray_index_document (118 + 18) = Ok (7, 140)
  ∧ ∀ (fuel : nat) (seen : list XmlTagElement) (turns : nat),
      traverseLoop android utf16_to_utf8 (S fuel) stray_index_document
        RES_XML_START_ELEMENT_TYPE 118 seen turns
      = Some (mkRun seen turns (Faulted OutOfBounds)).
Proof.
  assert (Hsize : bsize manifest_document < 2 ^ 63) by (vm_compute; reflexivity).
  assert (Hpool : readStrings utf16_to_utf8 manifest_document = Ok manifest_strings)
    by (vm_compute; reflexivity).
  assert (Hns : readBytesAtIndex 4 manifest_document (318 + 14) = Ok (0xFFFFFFFF, 336))
    by (vm_compute; reflexivity).
  assert (Hname : readBytesAtIndex 4 manifest_document (318 + 18) = Ok (1, 340))
    by (vm_compute; reflexivity).
  split; [exact Hsize|]. split; [exact Hpool|]. split; [exact Hns|]. split; [exact Hname|].
  destruct (element_index_lookup android utf16_to_utf8 manifest_document Hsize
              manifest_strings 318 0xFFFFFFFF 1 336 340 ltac:(lia) Hpool Hns Hname)
    as [Hindexed _].
  assert (Hsize' : bsize stray_index_document < 2 ^ 63) by (vm_compute; reflexivity).
  assert (Hpool' : readStrings utf16_to_utf8 stray_index_document
                   = Ok ["p"; "android"; "http://schemas.android.com"])
    by (vm_compute; reflexivity).
  assert (Hns' : readBytesAtIndex 4 stray_index_document (118 + 14) = Ok (0xFFFFFFFF, 136))
    by (vm_compute; reflexivity).
  assert (Hname' : readBytesAtIndex 4 stray_index_document (118 + 18) = Ok (7, 140))
    by (vm_compute; reflexivity).
  destruct (element_index_lookup android utf16_to_utf8 stray_index_document Hsize'
              _ 118 0xFFFFFFFF 7 136 140 ltac:(lia) Hpool' Hns' Hname')
    as [_ Hstray].
  destruct (Hindexed EmptyString "application") as [Hend Hstart].
  { left. split; [vm_compute; reflexivity | reflexivity]. }
  { right. split; [vm_compute; discriminate | reflexivity]. }
  assert (Hseven : stray ["p"; "android"; "http://schemas.android.com"] 7)
    by (vm_compute; discriminate).
  destruct (Hstray (or_intror Hseven) RES_XML_START_ELEMENT_TYPE (or_introl eq_refl))
    as [_ Hrun].
  split; [exact Hend|]. split; [exact Hstart|].
  split; [exact Hsize'|]. split; [exact Hpool'|]. split; [exact Hns'|].
  split; [exact Hname'|]. exact Hrun.
Defined.

Lemma start_element_last_record_wins_witness :
  bsize twice_document < 2 ^ 63
  ∧ readStrings utf16_to_utf8 twice_document = Ok twice_pool
  ∧ handleChunk android utf16_to_utf8 twice_document RES_XML_START_ELEMENT_TYPE 110
    = Ok ([StartXmlTagElement "item" {["id" := "second"]}], 184)
  ∧ readBytesAtIndex 4 twice_document (110 + 22) = Ok (XML_ATTRS_MARKER android, 136)
  ∧ readBytesAtIndex 4 twice_document (110 + 26) = Ok (2, 140)
  ∧ attributeEntries android twice_document twice_pool (Z.to_nat 2) (110 + 34)
    = Ok ([] ++ ("id", "first") :: [] ++ ("id", "second") :: [])
  ∧ ∃ element attributes,
      [StartXmlTagElement "item" {["id" := "second"]}]
      = [StartXmlTagElement element attributes]
      ∧ attributes !! "id" = Some "second"
      ∧ Z.of_nat (size attributes) < 2.
Proof.
  assert (Hsize : bsize twice_document < 2 ^ 63) by (vm_compute; reflexivity).
  assert (Hpool : readStrings utf16_to_utf8 twice_document = Ok twice_pool)
    by (vm_compute; reflexivity).
  assert (Hchunk : handleChunk android utf16_to_utf8 twice_document
                     RES_XML_START_ELEMENT_TYPE 110
                   = Ok ([StartXmlTagElement "item" {["id" := "second"]}], 184))
    by (vm_compute; reflexivity).
  assert (Hmarker : readBytesAtIndex 4 twice_document (110 + 22)
                    = Ok (XML_ATTRS_MARKER android, 136)) by (vm_compute; reflexivity).
  assert (Hcount : readBytesAtIndex 4 twice_document (110 + 26) = Ok (2, 140))
    by (vm_compute; reflexivity).
  assert (Hentries : attributeEntries android twice_document twice_pool (Z.to_nat 2) (110 + 34)
                     = Ok ([] ++ ("id", "first") :: [] ++ ("id", "second") :: []))
    by (vm_compute; reflexivity).
  split; [exact Hsize|]. split; [exact Hpool|]. split; [exact Hchunk|].
  split; [exact Hmarker|]. split; [exact Hcount|]. split; [exact Hentries|].
  apply (start_element_last_record_wins android utf16_to_utf8 twice_document Hsize
           twice_pool 110 184 2 136 140 _ [] [] [] "id" "first" "second"
           Hpool Hchunk Hmarker Hcount Hentries).
  apply not_elem_of_nil.
Defined.
